(** * Bilinapp chat backend: a shallow embedding of [backend/server.js]

    The server is an Express application with a Socket.IO channel on top of
    two Mongoose models ([User], [Message]).  Every route handler and socket
    handler of [server.js] is embedded below as a computation in a small
    state / exception / output monad ([Async]), in which

    - the document store is a pair of lists kept in insertion order
      (the order in which [find] returns documents),
    - a rejected promise is a thrown exception ([Thrown]), caught by the
      handlers' [try ... catch] blocks,
    - console output, HTTP responses and Socket.IO emissions are recorded
      as a list of [Effect]s.

    A handler runs atomically: the interleaving of two handlers at their
    [await] points is not modelled.  Request fields are strings, document
    identifiers are [ObjectId]s.  A JavaScript string is modelled by the
    [string] of the bytes of its UTF-8 form; [toLowerCase] is a function of
    the JavaScript runtime, known by what it does to ASCII strings and by
    the letters its results never contain. *)

From Stdlib Require Import List String Ascii Bool ZArith NArith Lia.
Import ListNotations.
Open Scope string_scope.
Open Scope list_scope.

Set Implicit Arguments.

(** ** Strings

    In the UTF-8 form of a string the characters of ASCII are the bytes
    below 128, and every other character is a run of bytes from 128 up. *)

Definition isUpper (c : ascii) : bool :=
  let n := N_of_ascii c in (65 <=? n)%N && (n <=? 90)%N.

Definition lowerChar (c : ascii) : ascii :=
  if isUpper c then ascii_of_N (N_of_ascii c + 32) else c.

(** The letters [A] to [Z] made lower-case, every other byte kept. *)
Fixpoint asciiLowerCase (s : string) : string :=
  match s with
  | EmptyString => EmptyString
  | String c r => String (lowerChar c) (asciiLowerCase r)
  end.

(** The string has one of the letters [A] to [Z]. *)
Fixpoint hasUpper (s : string) : bool :=
  match s with
  | EmptyString => false
  | String c r => isUpper c || hasUpper r
  end.

(** The string is made of ASCII characters only. *)
Fixpoint isAscii (s : string) : bool :=
  match s with
  | EmptyString => true
  | String c r => (N_of_ascii c <? 128)%N && isAscii r
  end.

(** [String.prototype.toLowerCase], which follows the case mappings of
    Unicode.  Two facts about it are used: on an ASCII string it makes
    the letters [A] to [Z] lower-case and keeps the rest; and whatever the
    string, none of the letters [A] to [Z] is left in, or brought into,
    its result. *)
Class JSString := {
  toLowerCase : string -> string;
  toLowerCase_ascii :
    forall s, isAscii s = true -> toLowerCase s = asciiLowerCase s;
  toLowerCase_no_upper :
    forall s, hasUpper (toLowerCase s) = false
}.

(** Two strings are equal up to the case of their letters. *)
Definition sameIgnoringCase {js : JSString} (a b : string) : Prop :=
  toLowerCase a = toLowerCase b.

Definition isEmpty (s : string) : bool :=
  match s with EmptyString => true | _ => false end.

(** Split at blanks, as Mongoose does with a field selection such as
    ['firstName lastName email role']. *)
Fixpoint splitBlank (acc s : string) : list string :=
  match s with
  | EmptyString => if isEmpty acc then [] else [acc]
  | String c r =>
      if Ascii.eqb c " "%char
      then (if isEmpty acc then [] else [acc]) ++ splitBlank "" r
      else splitBlank (acc ++ String c "") r
  end.

Definition fields (selection : string) : list string := splitBlank "" selection.

(** ** JSON values and documents *)

Definition ObjectId := N.
Bind Scope N_scope with ObjectId.
Definition SocketId := string.

#[local] Set Warnings "-register-all".
Inductive JVal : Type :=
| JNull
| JStr (s : string)
| JNum (z : Z)
| JOid (i : ObjectId)
| JDate (t : Z)
| JObj (o : list (string * JVal))
| JArr (a : list JVal).

Definition JObject := list (string * JVal).

Fixpoint get (k : string) (o : JObject) : option JVal :=
  match o with
  | [] => None
  | (k', v) :: r => if String.eqb k k' then Some v else get k r
  end.

Definition keys (o : JObject) : list string := map fst o.

(** [userSchema]: all five paths are [String] with [required: true]; [email]
    is [unique: true].  [_id] is the identifier Mongoose gives a document
    when it is constructed.  [toJSON] is the JSON form of a stored document
    ([__v] is Mongoose's version key, 0 for a document never updated). *)
Module User.
Record t := {
  _id : ObjectId;
  firstName : string;
  lastName : string;
  email : string;
  password : string;
  role : string
}.

Definition toJSON (u : t) : JObject :=
  [ ("_id", JOid (_id u));
    ("firstName", JStr (firstName u));
    ("lastName", JStr (lastName u));
    ("email", JStr (email u));
    ("password", JStr (password u));
    ("role", JStr (role u));
    ("__v", JNum 0) ].
End User.

(** [messageSchema]: [sender] and [receiver] are [ObjectId] references to
    [User], [content] is a required [String], [timestamp] a [Date] with
    default [Date.now]. *)
Module Message.
Record t := {
  _id : ObjectId;
  sender : ObjectId;
  receiver : ObjectId;
  content : string;
  timestamp : Z
}.

Definition toJSON (m : t) : JObject :=
  [ ("_id", JOid (_id m));
    ("sender", JOid (sender m));
    ("receiver", JOid (receiver m));
    ("content", JStr (content m));
    ("timestamp", JDate (timestamp m));
    ("__v", JNum 0) ].
End Message.

Definition inb (k : string) (l : list string) : bool :=
  existsb (String.eqb k) l.

(** An inclusive field selection keeps the listed paths and, as Mongoose
    always does unless told otherwise, [_id]. *)
Definition select (selection : string) (o : JObject) : JObject :=
  filter (fun kv => String.eqb (fst kv) "_id" || inb (fst kv) (fields selection)) o.

(** ** The store and the server state *)

Record Store := {
  users : list User.t;
  messages : list Message.t
}.

Record World := {
  db : Store;
  sockets : list SocketId;   (* the clients connected to [io] *)
  oidCounter : N             (* source of fresh [ObjectId]s *)
}.

Definition emptyStore : Store := {| users := []; messages := [] |}.
Definition emptyWorld : World := {| db := emptyStore; sockets := []; oidCounter := 0 |}.

(** ** Exceptions, effects and the handler monad *)

Inductive Exn : Type :=
| ValidationError (model path : string)   (* a [required] path is empty *)
| DuplicateKey (model path : string).     (* E11000 on a [unique] index *)

Inductive Effect : Type :=
| ConsoleLog (text : string)
| ConsoleError (text : string) (error : Exn)
| Respond (status : Z) (body : JVal)                     (* res.status(..).json(..) *)
| Emit (to : SocketId) (event : string) (payload : JVal). (* delivery of an io.emit *)

Inductive Outcome (A : Type) : Type :=
| Returned (a : A)
| Thrown (e : Exn).
Arguments Thrown {A} e.

Definition Async (A : Type) : Type := World -> Outcome A * World * list Effect.

Definition ret {A} (a : A) : Async A := fun w => (Returned a, w, []).

Definition throw {A} (e : Exn) : Async A := fun w => (Thrown e, w, []).

Definition bind {A B} (m : Async A) (k : A -> Async B) : Async B :=
  fun w =>
    match m w with
    | (Returned a, w1, o1) =>
        match k a w1 with
        | (r, w2, o2) => (r, w2, o1 ++ o2)
        end
    | (Thrown e, w1, o1) => (Thrown e, w1, o1)
    end.

(** [try { body } catch (error) { handler }] *)
Definition try_catch {A} (body : Async A) (handler : Exn -> Async A) : Async A :=
  fun w =>
    match body w with
    | (Returned a, w1, o1) => (Returned a, w1, o1)
    | (Thrown e, w1, o1) =>
        match handler e w1 with
        | (r, w2, o2) => (r, w2, o1 ++ o2)
        end
    end.

Declare Scope async_scope.
Delimit Scope async_scope with async.
Notation "x <- m ;; k" := (bind m (fun x => k))
  (at level 61, m at next level, right associativity) : async_scope.
Notation "m ;;; k" := (bind m (fun _ => k))
  (at level 61, right associativity) : async_scope.
Open Scope async_scope.

Definition effect (e : Effect) : Async unit := fun w => (Returned tt, w, [e]).

Definition console_log (text : string) : Async unit := effect (ConsoleLog text).
Definition console_error (text : string) (error : Exn) : Async unit :=
  effect (ConsoleError text error).

(** [res.status(status).json(body)] *)
Definition res_json (status : Z) (body : JVal) : Async unit :=
  effect (Respond status body).

Definition message_body (text : string) : JVal := JObj [("message", JStr text)].

(** [io.emit(event, payload)]: one delivery per connected client. *)
Definition io_emit (event : string) (payload : JVal) : Async unit :=
  fun w => (Returned tt, w, map (fun s => Emit s event payload) (sockets w)).

(** What a handler leaves behind: the new state and what it did. *)
Definition run (h : Async unit) (w : World) : World * list Effect :=
  match h w with
  | (_, w', out) => (w', out)
  end.

(** ** bcrypt

    [bcrypt.hash(password, rounds)] draws a random salt; the salt is an
    input of the handler that hashes.  The two laws are what the handlers
    rely on: a hash verifies against its password, and a hash is never the
    empty string (a bcrypt hash has 60 characters). *)

Definition Salt := string.

Class Bcrypt := {
  bcrypt_hash : string -> N -> Salt -> string;
  bcrypt_compare : string -> string -> bool;
  bcrypt_compare_hash :
    forall pw rounds salt, bcrypt_compare pw (bcrypt_hash pw rounds salt) = true;
  bcrypt_hash_nonempty :
    forall pw rounds salt, isEmpty (bcrypt_hash pw rounds salt) = false
}.

(** ** The Mongoose models *)

(** Query objects are predicates on documents. *)
Definition byEmail (e : string) : User.t -> bool :=      (* { email: e } *)
  fun u => String.eqb (User.email u) e.
Definition byRole (r : string) : User.t -> bool :=       (* { role: r } *)
  fun u => String.eqb (User.role u) r.
Definition all {A} : A -> bool := fun _ => true.         (* {} *)
Definition fromTo (s r : ObjectId) : Message.t -> bool := (* { sender: s, receiver: r } *)
  fun m => N.eqb (Message.sender m) s && N.eqb (Message.receiver m) r.
Definition q_or {A} (p q : A -> bool) : A -> bool :=     (* { $or: [p, q] } *)
  fun a => p a || q a.

Definition newObjectId : Async ObjectId :=
  fun w =>
    (Returned (oidCounter w),
     {| db := db w; sockets := sockets w; oidCounter := N.succ (oidCounter w) |},
     []).

Definition getStore : Async Store := fun w => (Returned (db w), w, []).

Definition putStore (s : Store) : Async unit :=
  fun w => (Returned tt, {| db := s; sockets := sockets w; oidCounter := oidCounter w |}, []).

(** [User.findOne(q)]: the first document that matches, or [null]. *)
Definition User_findOne (q : User.t -> bool) : Async (option User.t) :=
  s <- getStore ;; ret (find q (users s)).

(** [User.find(q)]: the documents that match, in store order. *)
Definition User_find (q : User.t -> bool) : Async (list User.t) :=
  s <- getStore ;; ret (filter q (users s)).

Definition Message_find (q : Message.t -> bool) : Async (list Message.t) :=
  s <- getStore ;; ret (filter q (messages s)).

(** [new User({ firstName, lastName, email, password, role })] *)
Definition new_User (firstName lastName email password role : string) : Async User.t :=
  id <- newObjectId ;;
  ret {| User._id := id; User.firstName := firstName; User.lastName := lastName;
         User.email := email; User.password := password; User.role := role |}.

(** [new Message({ sender, receiver, content })]; the [timestamp] default
    [Date.now] is taken when the document is constructed. *)
Definition new_Message (now : Z) (sender receiver : ObjectId) (content : string)
  : Async Message.t :=
  id <- newObjectId ;;
  ret {| Message._id := id; Message.sender := sender; Message.receiver := receiver;
         Message.content := content; Message.timestamp := now |}.

(** A [required] [String] path rejects the empty string. *)
Definition required (model path value : string) : Async unit :=
  if isEmpty value then throw (ValidationError model path) else ret tt.

(** [doc.save()] on a new [User]: validation, then insertion under the
    unique index on [email]. *)
Definition User_save (u : User.t) : Async unit :=
  required "User" "firstName" (User.firstName u) ;;;
  required "User" "lastName" (User.lastName u) ;;;
  required "User" "email" (User.email u) ;;;
  required "User" "password" (User.password u) ;;;
  required "User" "role" (User.role u) ;;;
  s <- getStore ;;
  if existsb (byEmail (User.email u)) (users s)
  then throw (DuplicateKey "User" "email")
  else putStore {| users := users s ++ [u]; messages := messages s |}.

(** [doc.save()] on a new [Message]. *)
Definition Message_save (m : Message.t) : Async unit :=
  required "Message" "content" (Message.content m) ;;;
  s <- getStore ;;
  putStore {| users := users s; messages := messages s ++ [m] |}.

(** [User.find(q, selection)] *)
Definition User_find_select (q : User.t -> bool) (selection : string)
  : Async (list JObject) :=
  found <- User_find q ;; ret (map (fun u => select selection (User.toJSON u)) found).

(** [populate(path, selection)] on one document: the reference at [path]
    is replaced by the selected fields of the [User] it names, or by
    [null] when there is no such user. *)
Definition populate1 (us : list User.t) (selection path : string) (o : JObject) : JObject :=
  map (fun kv =>
         if String.eqb (fst kv) path then
           match snd kv with
           | JOid i =>
               match find (fun u => N.eqb (User._id u) i) us with
               | Some u => (fst kv, JObj (select selection (User.toJSON u)))
               | None => (fst kv, JNull)
               end
           | v => (fst kv, v)
           end
         else kv) o.

(** [query.populate(paths, selection)] *)
Definition populate (paths selection : string) (docs : list JObject) : Async (list JObject) :=
  s <- getStore ;;
  ret (map (fun o => fold_left (fun acc p => populate1 (users s) selection p acc)
                               (fields paths) o) docs).

(** ** [server.js] *)

(** The plain objects of the [defaultUsers] array. *)
Module UserData.
Record t := {
  firstName : string;
  lastName : string;
  email : string;
  password : string;
  role : string
}.
End UserData.

Definition defaultUsers : list UserData.t :=
  [ {| UserData.firstName := "Admin"; UserData.lastName := "User";
       UserData.email := "admin@example.com"; UserData.password := "admin123";
       UserData.role := "Admin" |};
    {| UserData.firstName := "Teacher"; UserData.lastName := "User";
       UserData.email := "teacher@example.com"; UserData.password := "teacher123";
       UserData.role := "Teacher" |};
    {| UserData.firstName := "Parent"; UserData.lastName := "User";
       UserData.email := "parent@example.com"; UserData.password := "parent123";
       UserData.role := "Parent" |} ].

(** [for (let x of l) { body }]; the index tells the iterations apart. *)
Fixpoint for_of {A} (i : nat) (l : list A) (body : nat -> A -> Async unit) : Async unit :=
  match l with
  | [] => ret tt
  | x :: r => body i x ;;; for_of (S i) r body
  end.

(** The socket registry that Socket.IO keeps for [io]. *)
Definition io_register (socket : SocketId) : Async unit :=
  fun w => (Returned tt,
            {| db := db w; sockets := sockets w ++ [socket]; oidCounter := oidCounter w |},
            []).

Definition io_unregister (socket : SocketId) : Async unit :=
  fun w => (Returned tt,
            {| db := db w;
               sockets := filter (fun s => negb (String.eqb s socket)) (sockets w);
               oidCounter := oidCounter w |},
            []).

Section Server.
Context {js : JSString} {bcrypt : Bcrypt}.

(** One iteration of the seeding loop; [salt] is the salt bcrypt draws
    if it gets to hash. *)
Definition initializeDefaultUser (salt : Salt) (userData : UserData.t) : Async unit :=
  try_catch
    (existingUser <- User_findOne (byEmail (UserData.email userData)) ;;
     match existingUser with
     | Some _ => ret tt
     | None =>
         let hashed := bcrypt_hash (UserData.password userData) 10 salt in
         newUser <- new_User (UserData.firstName userData) (UserData.lastName userData)
                             (UserData.email userData) hashed (UserData.role userData) ;;
         User_save newUser ;;;
         console_log ("Created default user: " ++ UserData.email userData)
     end)
    (fun error => console_error "Error initializing default users:" error).

(** [initializeDefaultUsers], called once the connection to the store is
    open; [salts i] is the salt of the [i]-th iteration. *)
Definition initializeDefaultUsers (salts : nat -> Salt) : Async unit :=
  for_of 0 defaultUsers (fun i userData => initializeDefaultUser (salts i) userData).

(** [app.post('/signup')] *)
Definition post_signup (salt : Salt) (firstName lastName email password role : string)
  : Async unit :=
  try_catch
    (existingUser <- User_findOne (byEmail email) ;;
     match existingUser with
     | Some _ => res_json 400 (message_body "Email already exists")
     | None =>
         let hashedPassword := bcrypt_hash password 10 salt in
         newUser <- new_User firstName lastName email hashedPassword role ;;
         User_save newUser ;;;
         res_json 201 (message_body "User created successfully")
     end)
    (fun error =>
       console_error "Error during signup:" error ;;;
       res_json 500 (message_body "Server error during signup")).

(** [app.post('/login')] *)
Definition post_login (email password : string) : Async unit :=
  try_catch
    (found <- User_findOne (byEmail (toLowerCase email)) ;;
     match found with
     | None => res_json 400 (message_body "Invalid email or password")
     | Some user =>
         let isMatch := bcrypt_compare password (User.password user) in
         if negb isMatch
         then res_json 400 (message_body "Invalid email or password")
         else res_json 200 (JObj [("message", JStr "Login successful");
                                  ("user", JObj (User.toJSON user))])
     end)
    (fun error =>
       console_error "Error during login:" error ;;;
       res_json 500 (message_body "Server error during login")).

(** [app.get('/chat/users')] *)
Definition get_chat_users : Async unit :=
  try_catch
    (found <- User_find_select all "firstName lastName email role" ;;
     res_json 200 (JArr (map JObj found)))
    (fun error =>
       console_error "Error fetching users:" error ;;;
       res_json 500 (message_body "Error fetching users")).

(** [app.get('/chat/teachers')] *)
Definition get_chat_teachers : Async unit :=
  try_catch
    (teachers <- User_find (byRole "Teacher") ;;
     res_json 200 (JArr (map (fun u => JObj (User.toJSON u)) teachers)))
    (fun error =>
       console_error "Error fetching teachers:" error ;;;
       res_json 500 (message_body "Error fetching teachers")).

(** [app.get('/chat/parents')] *)
Definition get_chat_parents : Async unit :=
  try_catch
    (parents <- User_find (byRole "Parent") ;;
     res_json 200 (JArr (map (fun u => JObj (User.toJSON u)) parents)))
    (fun error =>
       console_error "Error fetching parents:" error ;;;
       res_json 500 (message_body "Error fetching parents")).

(** [app.get('/chat/messages/:otherUserId')] *)
Definition get_chat_messages (otherUserId currentUserId : ObjectId) : Async unit :=
  try_catch
    (found <- Message_find (q_or (fromTo currentUserId otherUserId)
                                 (fromTo otherUserId currentUserId)) ;;
     populated <- populate "sender receiver" "firstName lastName"
                           (map Message.toJSON found) ;;
     res_json 200 (JArr (map JObj populated)))
    (fun error =>
       console_error "Error fetching messages:" error ;;;
       res_json 500 (message_body "Error fetching messages")).

(** [io.on('connection')]: Socket.IO has registered the socket. *)
Definition on_connection (socket : SocketId) : Async unit :=
  io_register socket ;;;
  console_log ("A user connected: " ++ socket).

(** The payload of a [receiveMessage] event. *)
Definition receiveMessage (senderId receiverId : ObjectId) (content : string)
           (timestamp : Z) : JVal :=
  JObj [("senderId", JOid senderId); ("receiverId", JOid receiverId);
        ("content", JStr content); ("timestamp", JDate timestamp)].

(** [socket.on('sendMessage')]; [now] is the value of [Date.now] when
    the document is constructed. *)
Definition on_sendMessage (now : Z) (senderId receiverId : ObjectId) (content : string)
  : Async unit :=
  try_catch
    (message <- new_Message now senderId receiverId content ;;
     Message_save message ;;;
     io_emit "receiveMessage"
             (receiveMessage senderId receiverId content (Message.timestamp message)))
    (fun error => console_error "Error handling sendMessage event:" error).

(** [socket.on('disconnect')]: Socket.IO has dropped the socket. *)
Definition on_disconnect (socket : SocketId) : Async unit :=
  io_unregister socket ;;;
  console_log ("User disconnected: " ++ socket).

(** Everything that can happen to the server. *)
Inductive Event : Type :=
| StoreOpen (salts : nat -> Salt)
| PostSignup (salt : Salt) (firstName lastName email password role : string)
| PostLogin (email password : string)
| GetChatUsers
| GetChatTeachers
| GetChatParents
| GetChatMessages (otherUserId currentUserId : ObjectId)
| Connection (socket : SocketId)
| SendMessage (now : Z) (socket : SocketId) (senderId receiverId : ObjectId)
              (content : string)
| Disconnect (socket : SocketId).

Definition handler (ev : Event) : Async unit :=
  match ev with
  | StoreOpen salts => initializeDefaultUsers salts
  | PostSignup salt f l e p r => post_signup salt f l e p r
  | PostLogin e p => post_login e p
  | GetChatUsers => get_chat_users
  | GetChatTeachers => get_chat_teachers
  | GetChatParents => get_chat_parents
  | GetChatMessages o c => get_chat_messages o c
  | Connection s => on_connection s
  | SendMessage now _ s r c => on_sendMessage now s r c
  | Disconnect s => on_disconnect s
  end.

Definition step (w : World) (ev : Event) : World := fst (run (handler ev) w).

Definition steps (w : World) (evs : list Event) : World := fold_left step evs w.

End Server.

(** ** Vocabulary of the statements *)

(** The world after a document was constructed (an [ObjectId] was drawn). *)
Definition bump (w : World) : World :=
  {| db := db w; sockets := sockets w; oidCounter := N.succ (oidCounter w) |}.

(** The world after a new [User] was constructed and saved. *)
Definition withUser (w : World) (u : User.t) : World :=
  {| db := {| users := users (db w) ++ [u]; messages := messages (db w) |};
     sockets := sockets w; oidCounter := N.succ (oidCounter w) |}.

(** The world after a new [Message] was constructed and saved. *)
Definition withMessage (w : World) (m : Message.t) : World :=
  {| db := {| users := users (db w); messages := messages (db w) ++ [m] |};
     sockets := sockets w; oidCounter := N.succ (oidCounter w) |}.

Definition sent (id : ObjectId) (now : Z) (senderId receiverId : ObjectId)
           (content : string) : Message.t :=
  {| Message._id := id; Message.sender := senderId; Message.receiver := receiverId;
     Message.content := content; Message.timestamp := now |}.

(** The five fields [GET /chat/users] answers with. *)
Definition userView (u : User.t) : JObject :=
  [ ("_id", JOid (User._id u));
    ("firstName", JStr (User.firstName u));
    ("lastName", JStr (User.lastName u));
    ("email", JStr (User.email u));
    ("role", JStr (User.role u)) ].

(** What a reference to the account [i] is populated with. *)
Definition expanded (us : list User.t) (i : ObjectId) : JVal :=
  match find (fun u => N.eqb (User._id u) i) us with
  | Some u => JObj [ ("_id", JOid (User._id u));
                     ("firstName", JStr (User.firstName u));
                     ("lastName", JStr (User.lastName u)) ]
  | None => JNull
  end.

(** A message with its two references populated. *)
Definition conversation (us : list User.t) (m : Message.t) : JObject :=
  [ ("_id", JOid (Message._id m));
    ("sender", expanded us (Message.sender m));
    ("receiver", expanded us (Message.receiver m));
    ("content", JStr (Message.content m));
    ("timestamp", JDate (Message.timestamp m));
    ("__v", JNum 0) ].

(** [m] was sent from [a] to [b] or from [b] to [a]. *)
Definition between (a b : ObjectId) (m : Message.t) : Prop :=
  (Message.sender m = a /\ Message.receiver m = b) \/
  (Message.sender m = b /\ Message.receiver m = a).

(** [s'] holds the records of [s], unchanged and in place, and maybe more. *)
Definition extends (s s' : Store) : Prop :=
  exists us ms, users s' = users s ++ us /\ messages s' = messages s ++ ms.

Definition wellFormed (d : UserData.t) : Prop :=
  UserData.firstName d <> "" /\ UserData.lastName d <> "" /\
  UserData.email d <> "" /\ UserData.role d <> "".

Definition absentIn (us : list User.t) (d : UserData.t) : bool :=
  negb (existsb (byEmail (UserData.email d)) us).

Section Vocabulary.
Context {bcrypt : Bcrypt}.

(** The account that a signup (or the seeding) constructs. *)
Definition signedUp (id : ObjectId) (salt : Salt)
           (firstName lastName email password role : string) : User.t :=
  {| User._id := id; User.firstName := firstName; User.lastName := lastName;
     User.email := email; User.password := bcrypt_hash password 10 salt;
     User.role := role |}.

(** [u] is the account seeded from the default [d]. *)
Definition seededFrom (u : User.t) (d : UserData.t) : Prop :=
  User.firstName u = UserData.firstName d /\
  User.lastName u = UserData.lastName d /\
  User.email u = UserData.email d /\
  User.role u = UserData.role d /\
  exists salt, User.password u = bcrypt_hash (UserData.password d) 10 salt.

End Vocabulary.

(** No two stored accounts have the same email. *)
Definition uniqueEmails (s : Store) : Prop := NoDup (map User.email (users s)).

Definition isRespond (e : Effect) : bool :=
  match e with Respond _ _ => true | _ => false end.

Definition isEmit (e : Effect) : bool :=
  match e with Emit _ _ _ => true | _ => false end.

(** The events that are HTTP requests. *)
Definition isHttp (ev : Event) : bool :=
  match ev with
  | PostSignup _ _ _ _ _ _ | PostLogin _ _ | GetChatUsers | GetChatTeachers
  | GetChatParents | GetChatMessages _ _ => true
  | StoreOpen _ | Connection _ | SendMessage _ _ _ _ _ | Disconnect _ => false
  end.

(** The body of a successful login. *)
Definition loggedIn (u : User.t) : JVal :=
  JObj [("message", JStr "Login successful");
        ("user", JObj [("_id", JOid (User._id u));
                       ("firstName", JStr (User.firstName u));
                       ("lastName", JStr (User.lastName u));
                       ("email", JStr (User.email u));
                       ("password", JStr (User.password u));
                       ("role", JStr (User.role u));
                       ("__v", JNum 0)])].

(** The line the seeding logs for an account it created. *)
Definition createdLine (d : UserData.t) : Effect :=
  ConsoleLog ("Created default user: " ++ UserData.email d).

(** ** A small instance of the bcrypt interface

    Used to run the handlers on concrete requests: the hash is the password,
    a separator and the salt. *)
Definition toy_hash (pw : string) (rounds : N) (salt : Salt) : string :=
  pw ++ "$" ++ salt.

Definition toy_compare (pw hash : string) : bool := String.prefix (pw ++ "$") hash.

Definition toy_bcrypt : Bcrypt.
Proof.
  refine {| bcrypt_hash := toy_hash; bcrypt_compare := toy_compare |}.
  - intros pw rounds salt. unfold toy_compare, toy_hash.
    induction pw as [|c pw IH]; simpl.
    + now destruct salt.
    + destruct (ascii_dec c c) as [_|n]; [exact IH | now elim n].
  - intros pw rounds salt. unfold toy_hash. now destruct pw.
Defined.

(** ** A small instance of the string interface

    Used to run the handlers on requests written in ASCII, where every
    [toLowerCase] is this one. *)
Definition ascii_strings : JSString.
Proof.
  refine {| toLowerCase := asciiLowerCase |}.
  - intros s _. reflexivity.
  - induction s as [|c r IH]; simpl; [reflexivity|]. rewrite IH, orb_false_r.
    destruct c as [b0 b1 b2 b3 b4 b5 b6 b7].
    destruct b0, b1, b2, b3, b4, b5, b6, b7; reflexivity.
Defined.

(** A world to run the handlers in: two accounts, one connected client. *)
Definition jane : User.t :=
  {| User._id := 0; User.firstName := "Jane"; User.lastName := "Doe";
     User.email := "jane@x.com"; User.password := toy_hash "pw1" 10 "s";
     User.role := "Teacher" |}.

Definition sam : User.t :=
  {| User._id := 1; User.firstName := "Sam"; User.lastName := "Roe";
     User.email := "sam@x.com"; User.password := toy_hash "pw2" 10 "t";
     User.role := "Parent" |}.

Definition janeWorld : World :=
  {| db := {| users := [jane; sam]; messages := [] |};
     sockets := ["a"]; oidCounter := 2 |}.

(** * Properties *)

Unset Implicit Arguments.

(** ** Strings *)

(** A string with one of the letters [A] to [Z] is the lower-case form of
    no string. *)
Lemma toLowerCase_misses_upper {js : JSString} (x e : string) :
  hasUpper e = true -> toLowerCase x <> e.
Proof.
  intros Hup Heq. rewrite <- Heq, toLowerCase_no_upper in Hup. discriminate.
Qed.

Lemma isEmpty_true (s : string) : isEmpty s = true <-> s = "".
Proof. destruct s; simpl; split; congruence. Qed.

Lemma isEmpty_false (s : string) : isEmpty s = false <-> s <> "".
Proof. destruct s; simpl; split; congruence. Qed.

Example fields_users : fields "firstName lastName email role"
                       = ["firstName"; "lastName"; "email"; "role"].
Proof. reflexivity. Qed.

Example fields_populate : fields "sender receiver" = ["sender"; "receiver"].
Proof. reflexivity. Qed.

(** ** Lists *)

Lemma existsb_byEmail (e : string) (us : list User.t) :
  existsb (byEmail e) us = true <-> exists u, In u us /\ User.email u = e.
Proof.
  rewrite existsb_exists. unfold byEmail.
  split; intros [u [Hin Hu]]; exists u; split; auto; now apply String.eqb_eq.
Qed.

Lemma find_existsb {A} (p : A -> bool) (l : list A) :
  find p l = None <-> existsb p l = false.
Proof.
  induction l as [|x l IH]; simpl; [tauto|].
  destruct (p x); simpl; [split; discriminate | exact IH].
Qed.

Lemma find_is_Some {A} (p : A -> bool) (l : list A) :
  existsb p l = true -> exists x, find p l = Some x.
Proof.
  intros H. destruct (find p l) as [x|] eqn:F; [now exists x|].
  apply find_existsb in F. congruence.
Qed.

Lemma absent_byEmail (e : string) (us : list User.t) :
  (forall u, In u us -> User.email u <> e) <-> find (byEmail e) us = None.
Proof.
  rewrite find_existsb. split.
  - intros H. destruct (existsb (byEmail e) us) eqn:E; [|reflexivity].
    apply existsb_byEmail in E as [u [Hin Hu]]. now elim (H u Hin).
  - intros E u Hin Hu.
    assert (existsb (byEmail e) us = true) by (apply existsb_byEmail; eauto).
    congruence.
Qed.

(** ** What each handler does *)

Ltac unfold_async :=
  unfold run, try_catch, bind, ret, throw, res_json, console_error, console_log,
    effect, getStore, putStore, newObjectId, required in *.

Section Handlers.
Context {js : JSString} {bcrypt : Bcrypt}.

Lemma post_login_run (w : World) (email password : string) :
  run (post_login email password) w =
  (w, [Respond
         (match find (byEmail (toLowerCase email)) (users (db w)) with
          | Some user =>
              if bcrypt_compare password (User.password user) then 200%Z else 400%Z
          | None => 400%Z
          end)
         (match find (byEmail (toLowerCase email)) (users (db w)) with
          | Some user =>
              if bcrypt_compare password (User.password user)
              then JObj [("message", JStr "Login successful");
                         ("user", JObj (User.toJSON user))]
              else message_body "Invalid email or password"
          | None => message_body "Invalid email or password"
          end)]).
Proof.
  unfold post_login, User_findOne. unfold_async. simpl.
  destruct (find _ _) as [user|]; simpl; [|reflexivity].
  destruct (bcrypt_compare _ _); reflexivity.
Qed.

Lemma post_signup_duplicate (w : World) (salt : Salt)
      (firstName lastName email password role : string) (u : User.t) :
  find (byEmail email) (users (db w)) = Some u ->
  run (post_signup salt firstName lastName email password role) w =
  (w, [Respond 400 (message_body "Email already exists")]).
Proof.
  intros F. unfold post_signup, User_findOne. unfold_async. simpl.
  now rewrite F.
Qed.

Lemma post_signup_created (w : World) (salt : Salt)
      (firstName lastName email password role : string) :
  find (byEmail email) (users (db w)) = None ->
  firstName <> "" -> lastName <> "" -> email <> "" -> role <> "" ->
  run (post_signup salt firstName lastName email password role) w =
  (withUser w (signedUp (oidCounter w) salt firstName lastName email password role),
   [Respond 201 (message_body "User created successfully")]).
Proof.
  intros F Hf Hl He Hr.
  unfold post_signup, User_findOne, new_User, User_save. unfold_async. simpl.
  rewrite F. simpl.
  apply isEmpty_false in Hf, Hl, He, Hr. rewrite Hf, Hl, He, Hr. simpl.
  rewrite bcrypt_hash_nonempty. simpl.
  apply find_existsb in F. rewrite F. reflexivity.
Qed.

Lemma post_signup_invalid (w : World) (salt : Salt)
      (firstName lastName email password role : string) :
  find (byEmail email) (users (db w)) = None ->
  firstName = "" \/ lastName = "" \/ email = "" \/ role = "" ->
  exists path,
    run (post_signup salt firstName lastName email password role) w =
    (bump w,
     [ConsoleError "Error during signup:" (ValidationError "User" path);
      Respond 500 (message_body "Server error during signup")]).
Proof.
  intros F Hbad.
  unfold post_signup, User_findOne, new_User, User_save. unfold_async. simpl.
  rewrite F. simpl.
  destruct (isEmpty firstName) eqn:Ef; simpl; [eexists; reflexivity|].
  destruct (isEmpty lastName) eqn:El; simpl; [eexists; reflexivity|].
  destruct (isEmpty email) eqn:Ee; simpl; [eexists; reflexivity|].
  rewrite bcrypt_hash_nonempty. simpl.
  destruct (isEmpty role) eqn:Er; simpl; [eexists; reflexivity|].
  apply isEmpty_false in Ef, El, Ee, Er. tauto.
Qed.

(** *** Seeding *)

Lemma initializeDefaultUser_skip (w : World) (salt : Salt) (d : UserData.t) :
  existsb (byEmail (UserData.email d)) (users (db w)) = true ->
  initializeDefaultUser salt d w = (Returned tt, w, []).
Proof.
  intros E. apply find_is_Some in E as [u F].
  unfold initializeDefaultUser, User_findOne. unfold_async. simpl.
  now rewrite F.
Qed.

Lemma initializeDefaultUser_create (w : World) (salt : Salt) (d : UserData.t) :
  wellFormed d ->
  existsb (byEmail (UserData.email d)) (users (db w)) = false ->
  initializeDefaultUser salt d w =
  (Returned tt,
   withUser w (signedUp (oidCounter w) salt (UserData.firstName d) (UserData.lastName d)
                        (UserData.email d) (UserData.password d) (UserData.role d)),
   [ConsoleLog ("Created default user: " ++ UserData.email d)]).
Proof.
  intros (Hf & Hl & He & Hr) E.
  assert (F := proj2 (find_existsb _ _) E).
  unfold initializeDefaultUser, User_findOne, new_User, User_save. unfold_async. simpl.
  rewrite F. simpl.
  apply isEmpty_false in Hf, Hl, He, Hr. rewrite Hf, Hl, He, Hr. simpl.
  rewrite bcrypt_hash_nonempty. simpl. rewrite E. reflexivity.
Qed.

Lemma absentIn_snoc (us : list User.t) (u : User.t) (d : UserData.t) :
  User.email u <> UserData.email d ->
  absentIn (us ++ [u]) d = absentIn us d.
Proof.
  intros Hne. unfold absentIn. rewrite existsb_app. simpl.
  unfold byEmail at 2. apply String.eqb_neq in Hne. rewrite Hne.
  now rewrite !orb_false_r.
Qed.

Lemma seed_loop (salts : nat -> Salt) (ds : list UserData.t) :
  Forall wellFormed ds ->
  NoDup (map UserData.email ds) ->
  forall (i : nat) (w : World),
  exists created logs w',
    for_of i ds (fun i d => initializeDefaultUser (salts i) d) w = (Returned tt, w', logs) /\
    users (db w') = users (db w) ++ created /\
    messages (db w') = messages (db w) /\
    sockets w' = sockets w /\
    Forall2 seededFrom created (filter (absentIn (users (db w))) ds) /\
    (created = [] -> w' = w /\ logs = []).
Proof.
  induction ds as [|d ds IH]; intros WF ND i w.
  - exists [], [], w. simpl. rewrite app_nil_r. repeat split; constructor.
  - inversion WF as [|? ? WFd WFds]; subst.
    simpl in ND. inversion ND as [|? ? Hnotin NDds]; subst.
    simpl for_of. unfold bind at 1.
    destruct (existsb (byEmail (UserData.email d)) (users (db w))) eqn:E.
    + rewrite (initializeDefaultUser_skip _ _ _ E).
      destruct (IH WFds NDds (S i) w) as (created & logs & w' & Hrun & Hu & Hm & Hs & HF & Hnil).
      rewrite Hrun. exists created, logs, w'. simpl.
      unfold absentIn at 1. rewrite E. simpl. repeat split; auto.
      all: now apply Hnil.
    + rewrite (initializeDefaultUser_create _ _ _ WFd E).
      set (u := signedUp _ _ _ _ _ _ _).
      destruct (IH WFds NDds (S i) (withUser w u))
        as (created & logs & w' & Hrun & Hu & Hm & Hs & HF & Hnil).
      rewrite Hrun.
      exists (u :: created),
             (ConsoleLog ("Created default user: " ++ UserData.email d) :: logs), w'.
      simpl in Hu, Hm, Hs |- *. rewrite Hu, <- app_assoc.
      unfold absentIn at 1. rewrite E. simpl.
      repeat split; auto; try discriminate.
      constructor.
      * unfold seededFrom, u; simpl. repeat split; auto. now exists (salts i).
      * erewrite filter_ext_in; [exact HF|].
        intros d' Hd'. symmetry. apply absentIn_snoc. unfold u; simpl.
        intros Heq. apply Hnotin. rewrite Heq. now apply in_map.
Qed.

End Handlers.

(** *** The directory *)

Lemma filter_all {A} (l : list A) : filter all l = l.
Proof. induction l as [|x l IH]; simpl; [reflexivity | now rewrite IH]. Qed.

Lemma select_userView (u : User.t) :
  select "firstName lastName email role" (User.toJSON u) = userView u.
Proof. reflexivity. Qed.

Lemma get_chat_users_run (w : World) :
  run get_chat_users w =
  (w, [Respond 200 (JArr (map (fun u => JObj (userView u)) (users (db w))))]).
Proof.
  unfold get_chat_users, User_find_select, User_find. unfold_async. simpl.
  rewrite filter_all, map_map. reflexivity.
Qed.

Lemma get_chat_teachers_run (w : World) :
  run get_chat_teachers w =
  (w, [Respond 200 (JArr (map (fun u => JObj (User.toJSON u))
                              (filter (byRole "Teacher") (users (db w)))))]).
Proof. reflexivity. Qed.

Lemma get_chat_parents_run (w : World) :
  run get_chat_parents w =
  (w, [Respond 200 (JArr (map (fun u => JObj (User.toJSON u))
                              (filter (byRole "Parent") (users (db w)))))]).
Proof. reflexivity. Qed.

Lemma in_byRole (r : string) (us : list User.t) (u : User.t) :
  In u (filter (byRole r) us) <-> In u us /\ User.role u = r.
Proof. rewrite filter_In. unfold byRole. now rewrite String.eqb_eq. Qed.

(** *** Conversations *)

Lemma populate_conversation (us : list User.t) (m : Message.t) :
  fold_left (fun acc p => populate1 us "firstName lastName" p acc)
            (fields "sender receiver") (Message.toJSON m)
  = conversation us m.
Proof.
  unfold conversation, expanded. simpl.
  destruct (find _ us) as [s|]; destruct (find _ us) as [r|]; reflexivity.
Qed.

Lemma get_chat_messages_run (w : World) (otherUserId currentUserId : ObjectId) :
  run (get_chat_messages otherUserId currentUserId) w =
  (w, [Respond 200
         (JArr (map (fun m => JObj (conversation (users (db w)) m))
                    (filter (q_or (fromTo currentUserId otherUserId)
                                  (fromTo otherUserId currentUserId))
                            (messages (db w)))))]).
Proof.
  unfold get_chat_messages, Message_find, populate. unfold_async.
  cbv beta iota. cbn [app]. rewrite !map_map. do 4 f_equal.
  apply map_ext. intros m. now rewrite populate_conversation.
Qed.

Lemma in_between (a b : ObjectId) (ms : list Message.t) (m : Message.t) :
  In m (filter (q_or (fromTo a b) (fromTo b a)) ms) <-> In m ms /\ between a b m.
Proof.
  rewrite filter_In. unfold q_or, fromTo, between.
  rewrite orb_true_iff, !andb_true_iff, !N.eqb_eq. tauto.
Qed.

(** *** The realtime channel *)

Lemma Message_save_thrown (m : Message.t) (w w2 : World) (e : Exn) (o : list Effect) :
  Message_save m w = (Thrown e, w2, o) ->
  Message.content m = "" /\ e = ValidationError "Message" "content" /\ w2 = w /\ o = [].
Proof.
  unfold Message_save. unfold_async.
  destruct (isEmpty (Message.content m)) eqn:E; simpl; intros H; inversion H; subst.
  repeat split. now apply isEmpty_true.
Qed.

Lemma Message_save_returned (m : Message.t) (w : World) :
  Message.content m <> "" ->
  Message_save m w =
  (Returned tt,
   {| db := {| users := users (db w); messages := messages (db w) ++ [m] |};
      sockets := sockets w; oidCounter := oidCounter w |},
   []).
Proof.
  intros H. apply isEmpty_false in H.
  unfold Message_save. unfold_async. now rewrite H.
Qed.

Lemma on_sendMessage_saved (w : World) (now : Z) (senderId receiverId : ObjectId)
      (content : string) :
  content <> "" ->
  run (on_sendMessage now senderId receiverId content) w =
  (withMessage w (sent (oidCounter w) now senderId receiverId content),
   map (fun s => Emit s "receiveMessage" (receiveMessage senderId receiverId content now))
       (sockets w)).
Proof.
  intros H. apply isEmpty_false in H.
  unfold on_sendMessage, new_Message, Message_save, io_emit. unfold_async. simpl.
  now rewrite H.
Qed.

Lemma on_sendMessage_thrown (w : World) (now : Z) (senderId receiverId : ObjectId)
      (content : string) :
  content = "" ->
  run (on_sendMessage now senderId receiverId content) w =
  (bump w,
   [ConsoleError "Error handling sendMessage event:" (ValidationError "Message" "content")]).
Proof. intros ->. reflexivity. Qed.

(** The example of the specification, run with the small bcrypt: a signup
    is answered 201, the same signup again 400, a login with the password
    200 with the account, a login with another password 400. *)
Example jane_signs_up_and_logs_in :
  let signup := post_signup (bcrypt:=toy_bcrypt) "s" "Jane" "Doe" "jane@x.com" "pw1" "Teacher" in
  let w := fst (run signup emptyWorld) in
  snd (run signup emptyWorld) = [Respond 201 (message_body "User created successfully")] /\
  run signup w = (w, [Respond 400 (message_body "Email already exists")]) /\
  (exists user,
     run (post_login (js:=ascii_strings) (bcrypt:=toy_bcrypt) "jane@x.com" "pw1") w =
     (w, [Respond 200 (JObj [("message", JStr "Login successful"); ("user", JObj user)])]) /\
     get "role" user = Some (JStr "Teacher")) /\
  run (post_login (js:=ascii_strings) (bcrypt:=toy_bcrypt) "jane@x.com" "wrong") w =
  (w, [Respond 400 (message_body "Invalid email or password")]).
Proof.
  cbv zeta. split; [reflexivity|]. split; [reflexivity|]. split; [|reflexivity].
  eexists. split; reflexivity.
Qed.

(** * The claims *)

Lemma find_snoc_miss {A} (p : A -> bool) (l : list A) (x : A) :
  p x = false -> find p (l ++ [x]) = find p l.
Proof.
  intros H. induction l as [|y l IH]; simpl.
  - now rewrite H.
  - destruct (p y); [reflexivity | exact IH].
Qed.

Section Auth.
Context {js : JSString} {bcrypt : Bcrypt}.

Lemma post_signup_201 (w : World) (salt : Salt)
      (firstName lastName email password role : string) (body : JVal) :
  snd (run (post_signup salt firstName lastName email password role) w)
  = [Respond 201 body] ->
  find (byEmail email) (users (db w)) = None /\
  run (post_signup salt firstName lastName email password role) w =
  (withUser w (signedUp (oidCounter w) salt firstName lastName email password role),
   [Respond 201 (message_body "User created successfully")]).
Proof.
  intros H.
  destruct (find (byEmail email) (users (db w))) as [u|] eqn:F.
  - rewrite (post_signup_duplicate _ salt firstName lastName _ password role _ F) in H.
    discriminate.
  - split; [reflexivity|].
    destruct (isEmpty firstName) eqn:Ef;
      [|destruct (isEmpty lastName) eqn:El;
        [|destruct (isEmpty email) eqn:Ee; [|destruct (isEmpty role) eqn:Er]]].
    5: { apply post_signup_created; auto; now apply isEmpty_false. }
    all: exfalso.
    all: destruct (post_signup_invalid w salt firstName lastName email password role F)
      as [path Hrun];
      [ rewrite <- !isEmpty_true; tauto | rewrite Hrun in H; discriminate ].
Qed.

(** What a login can be answered: 200 with a stored account whose email is
    the lower-cased submitted email and whose hash the password verifies
    against, or 400; the world is unchanged and the answer is made of the
    stored document and fixed messages. *)
Lemma post_login_outcome (w : World) (email password : string) :
  (exists user,
     In user (users (db w)) /\
     User.email user = toLowerCase email /\
     bcrypt_compare password (User.password user) = true /\
     run (post_login email password) w =
     (w, [Respond 200 (JObj [("message", JStr "Login successful");
                             ("user", JObj (User.toJSON user))])])) \/
  run (post_login email password) w =
  (w, [Respond 400 (message_body "Invalid email or password")]).
Proof.
  rewrite post_login_run.
  destruct (find (byEmail (toLowerCase email)) (users (db w))) as [user|] eqn:F;
    [|now right].
  destruct (bcrypt_compare password (User.password user)) eqn:C; [|now right].
  left. exists user. apply find_some in F as [Hin He].
  apply String.eqb_eq in He. repeat split; assumption.
Qed.

(** C1, evaluated where the code leaves it: an account signs up as
    [Jane@x.com]; a login with that very email and the right password
    matches the stored email (exactly, hence also up to case) and
    the stored hash, and is answered 400 'Invalid email or password',
    because the lookup is by the lower-cased email [jane@x.com]. *)
Theorem login_rejects_mixed_case_signup (salt : Salt) :
  let w := step emptyWorld (PostSignup salt "Jane" "Doe" "Jane@x.com" "pw1" "Teacher") in
  exists u,
    users (db w) = [u] /\
    User.email u = "Jane@x.com" /\
    sameIgnoringCase "Jane@x.com" (User.email u) /\
    bcrypt_compare "pw1" (User.password u) = true /\
    run (post_login "Jane@x.com" "pw1") w =
    (w, [Respond 400 (message_body "Invalid email or password")]).
Proof.
  unfold step, handler.
  rewrite post_signup_created by (reflexivity || discriminate).
  eexists. simpl.
  split; [reflexivity|]. split; [reflexivity|]. split; [reflexivity|].
  split; [apply bcrypt_compare_hash|].
  rewrite post_login_run, (toLowerCase_ascii "Jane@x.com" eq_refl). reflexivity.
Qed.

(** C4 (as amended).  A signup whose email is the email of a stored
    account is answered 400 'Email already exists' and changes nothing.
    Otherwise, when [firstName], [lastName], [email] and [role] are not
    empty (they pass the schema's [required] check), exactly one account
    is appended, with the fields of the request and the salted bcrypt hash
    of the password as its [password], and the answer is 201 with the
    message only.  Otherwise, when one of the four is empty, nothing is
    stored and the answer is 500 'Server error during signup'. *)
Theorem signup_duplicate_or_created (w : World) (salt : Salt)
        (firstName lastName email password role : string) :
  let w' := fst (run (post_signup salt firstName lastName email password role) w) in
  let out := snd (run (post_signup salt firstName lastName email password role) w) in
  ((exists u, In u (users (db w)) /\ User.email u = email) ->
   w' = w /\ out = [Respond 400 (message_body "Email already exists")]) /\
  ((forall u, In u (users (db w)) -> User.email u <> email) ->
   firstName <> "" -> lastName <> "" -> email <> "" -> role <> "" ->
   exists u,
     users (db w') = users (db w) ++ [u] /\
     messages (db w') = messages (db w) /\
     User.firstName u = firstName /\ User.lastName u = lastName /\
     User.email u = email /\ User.role u = role /\
     User.password u = bcrypt_hash password 10 salt /\
     bcrypt_compare password (User.password u) = true /\
     out = [Respond 201 (message_body "User created successfully")]) /\
  ((forall u, In u (users (db w)) -> User.email u <> email) ->
   firstName = "" \/ lastName = "" \/ email = "" \/ role = "" ->
   db w' = db w /\
   exists path,
     out = [ConsoleError "Error during signup:" (ValidationError "User" path);
            Respond 500 (message_body "Server error during signup")]).
Proof.
  cbv zeta. split; [|split].
  - intros Hdup. apply existsb_byEmail, find_is_Some in Hdup as [u F].
    now rewrite (post_signup_duplicate w salt firstName lastName email password role u F).
  - intros Habs Hf Hl He Hr. apply absent_byEmail in Habs.
    rewrite (post_signup_created w salt firstName lastName email password role
               Habs Hf Hl He Hr).
    eexists. simpl. repeat (split; [reflexivity|]).
    split; [apply bcrypt_compare_hash | reflexivity].
  - intros Habs Hbad. apply absent_byEmail in Habs.
    destruct (post_signup_invalid w salt firstName lastName email password role Habs Hbad)
      as [path Hrun].
    rewrite Hrun. simpl. split; [reflexivity | now exists path].
Qed.

(** C10 (as amended).  A signup answered 201 stores the email as it was
    given; a login looks the account up under the lower-cased submitted
    email, so that its answer depends on the submitted email through its
    lower-case form only.  So when the email given at signup has one of
    the letters [A] to [Z] -- or, more generally, is the lower-case form of
    no string, as is an email with any letter that [toLowerCase] changes --
    no login reaches the new account: every login is answered as it was
    before the signup, and it is answered 400 'Invalid email or password'
    unless another account is stored under the lower-cased submitted
    email. *)
Theorem mixed_case_account_unreachable (w : World) (salt : Salt)
        (firstName lastName email password role : string) :
  hasUpper email = true \/ (forall typed, toLowerCase typed <> email) ->
  snd (run (post_signup salt firstName lastName email password role) w)
  = [Respond 201 (message_body "User created successfully")] ->
  let w' := fst (run (post_signup salt firstName lastName email password role) w) in
  (exists u, users (db w') = users (db w) ++ [u] /\ User.email u = email) /\
  (forall e e' pw,
     toLowerCase e = toLowerCase e' ->
     run (post_login e pw) w' = run (post_login e' pw) w') /\
  (forall e pw, snd (run (post_login e pw) w') = snd (run (post_login e pw) w)) /\
  (forall e pw,
     (forall v, In v (users (db w)) -> User.email v <> toLowerCase e) ->
     run (post_login e pw) w' =
     (w', [Respond 400 (message_body "Invalid email or password")])).
Proof.
  intros Hup H201.
  assert (Hno : forall typed, toLowerCase typed <> email).
  { destruct Hup as [Hup|Hno]; [|exact Hno].
    intros typed. now apply toLowerCase_misses_upper. }
  apply post_signup_201 in H201 as [F Hrun]. rewrite Hrun.
  cbv zeta. simpl fst.
  set (u := signedUp (oidCounter w) salt firstName lastName email password role).
  assert (Hfind : forall e, find (byEmail (toLowerCase e)) (users (db (withUser w u)))
                            = find (byEmail (toLowerCase e)) (users (db w))).
  { intros e. simpl. apply find_snoc_miss. unfold byEmail, u; simpl.
    apply String.eqb_neq. intros Heq. symmetry in Heq. now apply (Hno e). }
  split; [|split; [|split]].
  - exists u. split; reflexivity.
  - intros e e' pw He. rewrite !post_login_run. now rewrite He.
  - intros e pw. rewrite !post_login_run. simpl snd. now rewrite Hfind.
  - intros e pw Habs. apply absent_byEmail in Habs.
    rewrite post_login_run, Hfind, Habs. reflexivity.
Qed.

End Auth.

(** C4, where the claim as first stated fails: no account is stored under
    [jane@x.com], the first name is empty; no account is created and the
    answer is 500. *)
Lemma signup_empty_first_name_creates_nothing :
  (forall u, In u (users (db emptyWorld)) -> User.email u <> "jane@x.com") /\
  users (db (fst (run (post_signup (bcrypt:=toy_bcrypt)
                         "s" "" "Doe" "jane@x.com" "pw1" "Teacher") emptyWorld))) = [] /\
  snd (run (post_signup (bcrypt:=toy_bcrypt)
              "s" "" "Doe" "jane@x.com" "pw1" "Teacher") emptyWorld)
  = [ConsoleError "Error during signup:" (ValidationError "User" "firstName");
     Respond 500 (message_body "Server error during signup")].
Proof. split; [intros u []|]. split; reflexivity. Qed.

Lemma signup_duplicate_or_created_witness :
  exists u,
    users (db (fst (run (post_signup (bcrypt:=toy_bcrypt)
                           "s" "Jane" "Doe" "jane@x.com" "pw1" "Teacher") emptyWorld)))
    = [] ++ [u] /\
    User.email u = "jane@x.com" /\
    User.password u = toy_hash "pw1" 10 "s".
Proof.
  destruct (signup_duplicate_or_created (bcrypt:=toy_bcrypt) emptyWorld
              "s" "Jane" "Doe" "jane@x.com" "pw1" "Teacher") as (_ & Hnew & _).
  destruct Hnew as (u & Hu & _ & _ & _ & He & _ & Hp & _).
  - intros u [].
  - discriminate.
  - discriminate.
  - discriminate.
  - discriminate.
  - exists u. repeat split; assumption.
Defined.

(** The two signups of C10's counterexample: [jane@x.com], then [Jane@x.com]. *)
Lemma login_beside_mixed_case_account :
  let w := steps (js:=ascii_strings) (bcrypt:=toy_bcrypt) emptyWorld
             [PostSignup "s" "Jo" "Low" "jane@x.com" "pw2" "Parent";
              PostSignup "t" "Jane" "Doe" "Jane@x.com" "pw1" "Teacher"] in
  exists a b,
    users (db w) = [b; a] /\
    User.email a = "Jane@x.com" /\ hasUpper (User.email a) = true /\
    run (post_login (js:=ascii_strings) (bcrypt:=toy_bcrypt) "Jane@x.com" "pw2") w =
    (w, [Respond 200 (JObj [("message", JStr "Login successful");
                            ("user", JObj (User.toJSON b))])]).
Proof. cbv zeta. do 2 eexists. repeat split. Qed.

Lemma mixed_case_account_unreachable_witness :
  snd (run (post_login (js:=ascii_strings) (bcrypt:=toy_bcrypt) "Jane@x.com" "pw1")
           (fst (run (post_signup (bcrypt:=toy_bcrypt)
                        "t" "Jane" "Doe" "Jane@x.com" "pw1" "Teacher") emptyWorld)))
  = [Respond 400 (message_body "Invalid email or password")].
Proof.
  destruct (mixed_case_account_unreachable (js:=ascii_strings) (bcrypt:=toy_bcrypt)
              emptyWorld "t" "Jane" "Doe" "Jane@x.com" "pw1" "Teacher"
              (or_introl eq_refl) eq_refl)
    as (_ & _ & _ & H400).
  rewrite (H400 "Jane@x.com" "pw1"); [reflexivity | intros v []].
Defined.

(** ** The realtime channel *)

Lemma new_Message_run (w : World) (now : Z) (senderId receiverId : ObjectId)
      (content : string) :
  new_Message now senderId receiverId content w =
  (Returned (sent (oidCounter w) now senderId receiverId content), bump w, []).
Proof. reflexivity. Qed.

Lemma no_emit_in_error (text : string) (e : Exn) (sock : SocketId) (ev : string)
      (payload : JVal) :
  ~ In (Emit sock ev payload) [ConsoleError text e].
Proof. intros [H|[]]. discriminate. Qed.

(** C2 (as amended).  A [sendMessage] event whose content is not empty (so
    that saving the message does not throw) appends to the store one
    message with the sender, receiver and content of the event and the
    timestamp taken when the document was made; [getMessages] between the
    two accounts then returns it; and what the handler emits is exactly one
    [receiveMessage] event, carrying the four fields, to each connected
    client -- the sending client among them -- whoever the receiver is. *)
Theorem sendMessage_persisted_then_broadcast
        (w : World) (now : Z) (senderId receiverId : ObjectId) (content : string) :
  content <> "" ->
  let w' := fst (run (on_sendMessage now senderId receiverId content) w) in
  let out := snd (run (on_sendMessage now senderId receiverId content) w) in
  (exists m,
     messages (db w') = messages (db w) ++ [m] /\
     Message.sender m = senderId /\ Message.receiver m = receiverId /\
     Message.content m = content /\ Message.timestamp m = now /\
     exists body,
       run (get_chat_messages receiverId senderId) w' = (w', [Respond 200 (JArr body)]) /\
       In (JObj (conversation (users (db w')) m)) body) /\
  users (db w') = users (db w) /\
  sockets w' = sockets w /\
  out = map (fun s => Emit s "receiveMessage"
                           (receiveMessage senderId receiverId content now))
            (sockets w) /\
  (forall s, In s (sockets w) ->
             In (Emit s "receiveMessage"
                      (JObj [("senderId", JOid senderId); ("receiverId", JOid receiverId);
                             ("content", JStr content); ("timestamp", JDate now)]))
                out).
Proof.
  intros Hc. cbv zeta. rewrite (on_sendMessage_saved w now senderId receiverId content Hc).
  simpl fst. simpl snd.
  set (m := sent (oidCounter w) now senderId receiverId content).
  split; [|split; [|split; [|split]]]; try reflexivity.
  - exists m. repeat (split; [reflexivity|]).
    eexists. split; [apply get_chat_messages_run|].
    apply in_map with (f := fun m => JObj (conversation (users (db (withMessage w m))) m)).
    apply in_between. split.
    + simpl. apply in_or_app. right. now left.
    + left. split; reflexivity.
  - intros s Hs.
    apply (in_map (fun s => Emit s "receiveMessage"
                                 (receiveMessage senderId receiverId content now))).
    exact Hs.
Qed.

(** C3.  When saving the message that a [sendMessage] event constructed
    throws, all the handler does is log the error on the console: it emits
    nothing (so neither a [receiveMessage] broadcast nor anything to the
    sending client), and the store and the connected clients are as
    before.  And whenever the handler emits, the save has returned and the
    message is in the store. *)
Theorem sendMessage_persistence_failure
        (w : World) (now : Z) (senderId receiverId : ObjectId) (content : string) :
  let w' := fst (run (on_sendMessage now senderId receiverId content) w) in
  let out := snd (run (on_sendMessage now senderId receiverId content) w) in
  (forall m w1 o1 e w2 o2,
     new_Message now senderId receiverId content w = (Returned m, w1, o1) ->
     Message_save m w1 = (Thrown e, w2, o2) ->
     out = [ConsoleError "Error handling sendMessage event:" e] /\
     (forall sock ev payload, ~ In (Emit sock ev payload) out) /\
     db w' = db w /\ sockets w' = sockets w) /\
  (forall sock ev payload,
     In (Emit sock ev payload) out ->
     exists m w1 o1,
       new_Message now senderId receiverId content w = (Returned m, w1, o1) /\
       Message_save m w1 = (Returned tt, w', []) /\
       In m (messages (db w')) /\
       ev = "receiveMessage" /\
       payload = receiveMessage senderId receiverId content (Message.timestamp m)).
Proof.
  cbv zeta. split.
  - intros m w1 o1 e w2 o2 Hnew Hsave.
    rewrite new_Message_run in Hnew. inversion Hnew; subst m w1 o1.
    apply Message_save_thrown in Hsave as (Hc & -> & _ & _). simpl in Hc.
    rewrite (on_sendMessage_thrown w now senderId receiverId content Hc). simpl.
    repeat split. intros sock ev payload. apply no_emit_in_error.
  - intros sock ev payload Hin.
    destruct (isEmpty content) eqn:E.
    + apply isEmpty_true in E.
      rewrite (on_sendMessage_thrown w now senderId receiverId content E) in Hin.
      now apply no_emit_in_error in Hin.
    + apply isEmpty_false in E.
      rewrite (on_sendMessage_saved w now senderId receiverId content E) in Hin |- *.
      simpl in Hin |- *. apply in_map_iff in Hin as (s & Heq & _).
      inversion Heq; subst.
      exists (sent (oidCounter w) now senderId receiverId content), (bump w), [].
      split; [reflexivity|]. split; [now apply Message_save_returned|].
      split; [|split; reflexivity].
      apply in_or_app. right. now left.
Qed.

(** C2, where the claim as first stated fails: a client is connected, the
    content of the event is empty; no message is stored and nothing is
    broadcast. *)
Lemma sendMessage_empty_content_dropped :
  In "a" (sockets janeWorld) /\
  messages (db (fst (run (on_sendMessage 5 0 1 "") janeWorld))) = [] /\
  snd (run (on_sendMessage 5 0 1 "") janeWorld)
  = [ConsoleError "Error handling sendMessage event:"
                  (ValidationError "Message" "content")] /\
  ~ In (Emit "a" "receiveMessage" (receiveMessage 0 1 "" 5))
       (snd (run (on_sendMessage 5 0 1 "") janeWorld)).
Proof.
  split; [now left|]. split; [reflexivity|]. split; [reflexivity|].
  apply no_emit_in_error.
Qed.

Lemma sendMessage_persisted_then_broadcast_witness :
  In (Emit "a" "receiveMessage"
           (JObj [("senderId", JOid 0); ("receiverId", JOid 1);
                  ("content", JStr "hi"); ("timestamp", JDate 5)]))
     (snd (run (on_sendMessage 5 0 1 "hi") janeWorld)).
Proof.
  assert (Hc : "hi" <> "") by discriminate.
  destruct (sendMessage_persisted_then_broadcast janeWorld 5 0 1 "hi" Hc)
    as (_ & _ & _ & _ & Hall).
  apply Hall. now left.
Defined.

Lemma sendMessage_persistence_failure_witness :
  snd (run (on_sendMessage 5 0 1 "") janeWorld)
  = [ConsoleError "Error handling sendMessage event:"
                  (ValidationError "Message" "content")] /\
  db (fst (run (on_sendMessage 5 0 1 "") janeWorld)) = db janeWorld.
Proof.
  destruct (sendMessage_persistence_failure janeWorld 5 0 1 "") as [Hthrown _].
  destruct (Hthrown (sent 2 5 0 1 "") (bump janeWorld) []
                    (ValidationError "Message" "content") (bump janeWorld) []
                    eq_refl eq_refl)
    as (Hout & _ & Hdb & _).
  split; assumption.
Defined.

(** ** Seeding *)

Lemma defaultUsers_wellFormed : Forall wellFormed defaultUsers.
Proof. repeat constructor; discriminate. Qed.

Lemma defaultUsers_distinct : NoDup (map UserData.email defaultUsers).
Proof.
  simpl. repeat constructor; simpl; intros H;
    repeat (destruct H as [H|H]; [discriminate|]); exact H.
Qed.

Section Seeding.
Context {js : JSString} {bcrypt : Bcrypt}.

Lemma seeded_present (us created : list User.t) (ds : list UserData.t) :
  Forall2 seededFrom created (filter (absentIn us) ds) ->
  forall d, In d ds -> existsb (byEmail (UserData.email d)) (us ++ created) = true.
Proof.
  intros HF d Hd. rewrite existsb_app.
  destruct (existsb (byEmail (UserData.email d)) us) eqn:E; [reflexivity|]. simpl.
  assert (Hin : In d (filter (absentIn us) ds)).
  { apply filter_In. split; [exact Hd|]. unfold absentIn. now rewrite E. }
  clear Hd E. induction HF as [|u d' created ds' Hud _ IH]; [destruct Hin|].
  simpl. destruct Hin as [->|Hin].
  - destruct Hud as (_ & _ & He & _). unfold byEmail at 1.
    rewrite He, String.eqb_refl. reflexivity.
  - rewrite (IH Hin). apply orb_true_r.
Qed.

Lemma initializeDefaultUsers_run (salts : nat -> Salt) (w : World) :
  exists created logs w',
    initializeDefaultUsers salts w = (Returned tt, w', logs) /\
    users (db w') = users (db w) ++ created /\
    messages (db w') = messages (db w) /\
    sockets w' = sockets w /\
    Forall2 seededFrom created (filter (absentIn (users (db w))) defaultUsers) /\
    (created = [] -> w' = w /\ logs = []).
Proof.
  apply (seed_loop salts defaultUsers defaultUsers_wellFormed defaultUsers_distinct).
Qed.

Lemma initializeDefaultUsers_again (salts : nat -> Salt) (w : World) :
  (forall d, In d defaultUsers ->
             existsb (byEmail (UserData.email d)) (users (db w)) = true) ->
  run (initializeDefaultUsers salts) w = (w, []).
Proof.
  intros Hall.
  destruct (initializeDefaultUsers_run salts w)
    as (created & logs & w' & Hrun & _ & _ & _ & HF & Hnil).
  unfold run. rewrite Hrun.
  assert (Hnone : filter (absentIn (users (db w))) defaultUsers = []).
  { pose proof (Hall _ (or_introl eq_refl)) as H1.
    pose proof (Hall _ (or_intror (or_introl eq_refl))) as H2.
    pose proof (Hall _ (or_intror (or_intror (or_introl eq_refl)))) as H3.
    unfold absentIn. simpl in H1, H2, H3 |- *. now rewrite H1, H2, H3. }
  rewrite Hnone in HF. inversion HF; subst.
  destruct (Hnil eq_refl) as [-> ->]. reflexivity.
Qed.

(** C5.  Seeding keeps every stored account and message as it is and
    appends, in the order of the list, one account for each of the three
    defaults (admin, teacher, parent) whose email is not yet stored, with
    the default's names, email and role and the bcrypt hash of its
    password; afterwards each default email is stored.  Seeding again --
    whatever the salts -- changes nothing and logs nothing.  From the empty
    store, two runs leave exactly the three seed accounts. *)
Theorem seedDefaults_idempotent (salts salts' : nat -> Salt) (w : World) :
  let w1 := fst (run (initializeDefaultUsers salts) w) in
  (exists created,
     users (db w1) = users (db w) ++ created /\
     Forall2 seededFrom created (filter (absentIn (users (db w))) defaultUsers)) /\
  messages (db w1) = messages (db w) /\
  (forall d, In d defaultUsers ->
             exists u, In u (users (db w1)) /\ User.email u = UserData.email d) /\
  run (initializeDefaultUsers salts') w1 = (w1, []) /\
  map User.email
      (users (db (fst (run (initializeDefaultUsers salts')
                           (fst (run (initializeDefaultUsers salts) emptyWorld))))))
  = ["admin@example.com"; "teacher@example.com"; "parent@example.com"].
Proof.
  assert (Hgen : forall w0,
             let w1 := fst (run (initializeDefaultUsers salts) w0) in
             (exists created,
                 users (db w1) = users (db w0) ++ created /\
                 Forall2 seededFrom created
                         (filter (absentIn (users (db w0))) defaultUsers)) /\
             messages (db w1) = messages (db w0) /\
             (forall d, In d defaultUsers ->
                        existsb (byEmail (UserData.email d)) (users (db w1)) = true) /\
             run (initializeDefaultUsers salts') w1 = (w1, [])).
  { intros w0.
    destruct (initializeDefaultUsers_run salts w0)
      as (created & logs & w' & Hrun & Hu & Hm & _ & HF & _).
    cbv zeta.
    assert (Hfst : fst (run (initializeDefaultUsers salts) w0) = w')
      by (unfold run; now rewrite Hrun).
    rewrite Hfst.
    assert (Hall : forall d, In d defaultUsers ->
                     existsb (byEmail (UserData.email d)) (users (db w')) = true).
    { intros d Hd. rewrite Hu. now apply (seeded_present _ _ defaultUsers). }
    repeat split; auto.
    - now exists created.
    - now apply initializeDefaultUsers_again. }
  cbv zeta. destruct (Hgen w) as (Hcreated & Hm & Hall & Hagain).
  repeat split; auto.
  - intros d Hd. apply existsb_byEmail. now apply Hall.
  - destruct (Hgen emptyWorld) as ((created & Hu & HF) & _ & _ & Hagain0).
    rewrite Hagain0. simpl fst. rewrite Hu. simpl in HF |- *.
    inversion HF as [|u1 d1 c1 l1 H1 HF1]; subst.
    inversion HF1 as [|u2 d2 c2 l2 H2 HF2]; subst.
    inversion HF2 as [|u3 d3 c3 l3 H3 HF3]; subst.
    inversion HF3; subst. simpl.
    destruct H1 as (_ & _ & -> & _), H2 as (_ & _ & -> & _), H3 as (_ & _ & -> & _).
    reflexivity.
Qed.

End Seeding.

(** ** Conversations and the directory *)

Lemma q_or_comm (a b : ObjectId) (m : Message.t) :
  q_or (fromTo a b) (fromTo b a) m = q_or (fromTo b a) (fromTo a b) m.
Proof. unfold q_or. apply orb_comm. Qed.

(** C6 (as amended).  In every state [getMessages(a, b)] (the route with
    [currentUserId] = [a] and [otherUserId] = [b]) answers 200 with the
    stored messages sent from [a] to [b] or from [b] to [a], in store
    order and no others.  Each is returned with its content and
    timestamp, and with [sender] and [receiver] each replaced by the
    [_id], [firstName] and [lastName] of the stored account with that
    identifier, or by [null] when no stored account has it.
    [getMessages(b, a)] gives the same answer. *)
Theorem getMessages_union_symmetric (w : World) (a b : ObjectId) :
  let person := fun i =>
    match find (fun u => N.eqb (User._id u) i) (users (db w)) with
    | Some u => JObj [("_id", JOid (User._id u));
                      ("firstName", JStr (User.firstName u));
                      ("lastName", JStr (User.lastName u))]
    | None => JNull
    end in
  let shown := fun m =>
    JObj [("_id", JOid (Message._id m));
          ("sender", person (Message.sender m));
          ("receiver", person (Message.receiver m));
          ("content", JStr (Message.content m));
          ("timestamp", JDate (Message.timestamp m));
          ("__v", JNum 0)] in
  let exchanged := fun m =>
    (N.eqb (Message.sender m) a && N.eqb (Message.receiver m) b) ||
    (N.eqb (Message.sender m) b && N.eqb (Message.receiver m) a) in
  run (get_chat_messages b a) w
  = (w, [Respond 200 (JArr (map shown (filter exchanged (messages (db w)))))]) /\
  (forall j,
     In j (map shown (filter exchanged (messages (db w)))) <->
     exists m, In m (messages (db w)) /\
               ((Message.sender m = a /\ Message.receiver m = b) \/
                (Message.sender m = b /\ Message.receiver m = a)) /\
               j = shown m) /\
  run (get_chat_messages a b) w = run (get_chat_messages b a) w.
Proof.
  cbv zeta. split; [apply get_chat_messages_run|]. split.
  - intros j. rewrite in_map_iff. split.
    + intros (m & <- & Hm). apply (in_between a b) in Hm as [Hin Hbt].
      exists m. repeat split; assumption.
    + intros (m & Hin & Hbt & ->). exists m. split; [reflexivity|].
      apply (in_between a b). split; assumption.
  - rewrite !get_chat_messages_run. do 5 f_equal.
    apply filter_ext. intros m. apply q_or_comm.
Qed.

(** C6, where the claim as first stated fails: after a [sendMessage] event
    whose sender is the identifier of no account, the message is returned
    with [null] for its [sender]. *)
Lemma getMessages_unknown_sender_is_null :
  let w := fst (run (on_sendMessage 5 9 1 "hi") janeWorld) in
  (forall u, In u (users (db w)) -> User._id u <> 9%N) /\
  exists o,
    run (get_chat_messages 1 9) w = (w, [Respond 200 (JArr [JObj o])]) /\
    get "sender" o = Some JNull /\
    get "content" o = Some (JStr "hi").
Proof.
  cbv zeta. split.
  - intros u [<-|[<-|[]]]; discriminate.
  - eexists. split; [reflexivity|]. split; reflexivity.
Qed.

(** C7 (as amended).  [GET /chat/users] answers 200 with one record for
    each stored account, in store order; the record has exactly the fields
    [_id], [firstName], [lastName], [email] and [role], with the account's
    values, and no [password]. *)
Theorem listAllUsers_projection (w : World) :
  exists body,
    run get_chat_users w = (w, [Respond 200 (JArr (map JObj body))]) /\
    List.length body = List.length (users (db w)) /\
    (forall i u,
       nth_error (users (db w)) i = Some u ->
       exists o,
         nth_error body i = Some o /\
         keys o = ["_id"; "firstName"; "lastName"; "email"; "role"] /\
         get "_id" o = Some (JOid (User._id u)) /\
         get "firstName" o = Some (JStr (User.firstName u)) /\
         get "lastName" o = Some (JStr (User.lastName u)) /\
         get "email" o = Some (JStr (User.email u)) /\
         get "role" o = Some (JStr (User.role u))) /\
    (forall o, In o body -> get "password" o = None).
Proof.
  exists (map userView (users (db w))).
  rewrite get_chat_users_run, map_map, length_map.
  split; [reflexivity|]. split; [reflexivity|]. split.
  - intros i u Hi. exists (userView u). split.
    + now apply map_nth_error.
    + repeat split.
  - intros o Ho. apply in_map_iff in Ho as (u & <- & _). reflexivity.
Qed.

(** C7, where the claim as first stated fails: the record returned for the
    first of the two stored accounts has a fifth field, [_id]. *)
Lemma listAllUsers_returns_id :
  exists o o',
    run get_chat_users janeWorld = (janeWorld, [Respond 200 (JArr [JObj o; JObj o'])]) /\
    In "_id" (keys o) /\
    ~ In "_id" ["firstName"; "lastName"; "email"; "role"].
Proof.
  do 2 eexists. split; [reflexivity|]. split; [now left|].
  intros H. repeat (destruct H as [H|H]; [discriminate|]). exact H.
Qed.

(** C9.  [GET /chat/teachers] and [GET /chat/parents] answer 200 with the
    stored accounts whose role is exactly ['Teacher'], respectively
    ['Parent'], in store order and no others; each record is the whole
    document -- its identifier, names, email, [password] hash, role and
    version key, each with the stored value -- whereas no record of
    [GET /chat/users] has a [password]. *)
Theorem role_listings_return_full_records (w : World) :
  let full := fun u =>
    JObj [("_id", JOid (User._id u));
          ("firstName", JStr (User.firstName u));
          ("lastName", JStr (User.lastName u));
          ("email", JStr (User.email u));
          ("password", JStr (User.password u));
          ("role", JStr (User.role u));
          ("__v", JNum 0)] in
  let withRole := fun r =>
    filter (fun u => String.eqb (User.role u) r) (users (db w)) in
  run get_chat_teachers w = (w, [Respond 200 (JArr (map full (withRole "Teacher")))]) /\
  run get_chat_parents w = (w, [Respond 200 (JArr (map full (withRole "Parent")))]) /\
  (forall r u, In u (withRole r) <-> In u (users (db w)) /\ User.role u = r) /\
  (exists body,
     run get_chat_users w = (w, [Respond 200 (JArr (map JObj body))]) /\
     List.length body = List.length (users (db w)) /\
     forall o, In o body -> get "password" o = None).
Proof.
  cbv zeta.
  split; [apply get_chat_teachers_run|]. split; [apply get_chat_parents_run|].
  split; [intros r u; apply (in_byRole r)|].
  exists (map userView (users (db w))).
  rewrite get_chat_users_run, map_map, length_map. split; [reflexivity|].
  split; [reflexivity|].
  intros o Ho. apply in_map_iff in Ho as (u & <- & _). reflexivity.
Qed.

(** ** The store only grows *)

Lemma extends_refl (s : Store) : extends s s.
Proof. exists [], []. now rewrite !app_nil_r. Qed.

Lemma extends_trans (s1 s2 s3 : Store) : extends s1 s2 -> extends s2 s3 -> extends s1 s3.
Proof.
  intros (us & ms & Hu & Hm) (us' & ms' & Hu' & Hm').
  exists (us ++ us'), (ms ++ ms'). rewrite Hu', Hm', Hu, Hm, !app_assoc. now split.
Qed.

Lemma extends_user (s : Store) (u : User.t) :
  extends s {| users := users s ++ [u]; messages := messages s |}.
Proof. exists [u], []. simpl. now rewrite app_nil_r. Qed.

Lemma extends_message (s : Store) (m : Message.t) :
  extends s {| users := users s; messages := messages s ++ [m] |}.
Proof. exists [], [m]. simpl. now rewrite app_nil_r. Qed.

Section Invariant.
Context {js : JSString} {bcrypt : Bcrypt}.

Lemma step_extends (w : World) (ev : Event) : extends (db w) (db (step w ev)).
Proof.
  unfold step. destruct ev as [salts|salt f l e p r|e p| | | |o c|s|now sock s r c|s];
    cbn [handler].
  - destruct (initializeDefaultUsers_run salts w)
      as (created & logs & w' & Hrun & Hu & Hm & _).
    unfold run. rewrite Hrun. exists created, []. simpl. now rewrite Hm, app_nil_r.
  - destruct (find (byEmail e) (users (db w))) as [u|] eqn:F.
    + rewrite (post_signup_duplicate w salt f l e p r u F). apply extends_refl.
    + destruct (isEmpty f) eqn:Ef;
        [|destruct (isEmpty l) eqn:El;
          [|destruct (isEmpty e) eqn:Ee; [|destruct (isEmpty r) eqn:Er]]].
      5: { rewrite post_signup_created by (auto; now apply isEmpty_false).
           apply extends_user. }
      all: destruct (post_signup_invalid w salt f l e p r F) as [path Hrun];
        [ rewrite <- !isEmpty_true; tauto | rewrite Hrun; apply extends_refl ].
  - rewrite post_login_run. apply extends_refl.
  - rewrite get_chat_users_run. apply extends_refl.
  - apply extends_refl.
  - apply extends_refl.
  - rewrite get_chat_messages_run. apply extends_refl.
  - apply extends_refl.
  - destruct (isEmpty c) eqn:Ec.
    + apply isEmpty_true in Ec. rewrite (on_sendMessage_thrown w now s r c Ec).
      apply extends_refl.
    + apply isEmpty_false in Ec. rewrite (on_sendMessage_saved w now s r c Ec).
      apply extends_message.
  - apply extends_refl.
Qed.

(** C8.  Whatever happens to the server -- the seeding, a signup, a login,
    a listing, a retrieval of messages, a connection, a [sendMessage]
    event, a disconnection -- and so after any sequence of such events,
    the accounts and the messages that were stored are still stored, in
    place and unchanged: the store has only been appended to.  The logins,
    listings, retrievals, connections and disconnections leave the store
    as it is. *)
Theorem store_is_append_only (w : World) :
  (forall ev,
     exists us ms,
       users (db (step w ev)) = users (db w) ++ us /\
       messages (db (step w ev)) = messages (db w) ++ ms) /\
  (forall evs,
     exists us ms,
       users (db (steps w evs)) = users (db w) ++ us /\
       messages (db (steps w evs)) = messages (db w) ++ ms) /\
  (forall ev,
     match ev with
     | StoreOpen _ | PostSignup _ _ _ _ _ _ | SendMessage _ _ _ _ _ => True
     | _ => db (step w ev) = db w
     end).
Proof.
  split; [|split].
  - intros ev. apply step_extends.
  - intros evs. change (extends (db w) (db (steps w evs))).
    revert w. induction evs as [|ev evs IH]; intros w; simpl.
    + apply extends_refl.
    + apply extends_trans with (db (step w ev)); [apply step_extends | apply IH].
  - intros ev. unfold step. destruct ev; cbn [handler]; try exact I.
    + now rewrite post_login_run.
    + now rewrite get_chat_users_run.
    + reflexivity.
    + reflexivity.
    + now rewrite get_chat_messages_run.
    + reflexivity.
    + reflexivity.
Qed.

End Invariant.

(** * Further properties of the handlers *)

(** ** Lookups in a store that grows *)

Lemma find_app_Some {A} (p : A -> bool) (l l' : list A) (x : A) :
  find p l = Some x -> find p (l ++ l') = Some x.
Proof.
  induction l as [|y l IH]; simpl; [discriminate|].
  destruct (p y); [trivial | exact IH].
Qed.

Lemma find_app_None {A} (p : A -> bool) (l l' : list A) :
  find p l = None -> find p (l ++ l') = find p l'.
Proof.
  induction l as [|y l IH]; simpl; [reflexivity|].
  destruct (p y); [discriminate | exact IH].
Qed.

Lemma find_unique_email (us : list User.t) (u : User.t) :
  NoDup (map User.email us) -> In u us -> find (byEmail (User.email u)) us = Some u.
Proof.
  induction us as [|v us IH]; simpl; intros ND Hin; [destruct Hin|].
  inversion ND as [|? ? Hnotin ND']; subst.
  unfold byEmail at 1. destruct (String.eqb_spec (User.email v) (User.email u)) as [E|E].
  - destruct Hin as [->|Hin]; [reflexivity|].
    elim Hnotin. rewrite E. now apply in_map.
  - destruct Hin as [->|Hin]; [now elim E | now apply IH].
Qed.

Lemma toJSON_injective (u v : User.t) : User.toJSON u = User.toJSON v -> u = v.
Proof.
  destruct u, v. unfold User.toJSON. simpl. intros H. inversion H. reflexivity.
Qed.

Section Growth.
Context {js : JSString} {bcrypt : Bcrypt}.

Lemma steps_extends (evs : list Event) (w : World) : extends (db w) (db (steps w evs)).
Proof.
  revert w. induction evs as [|ev evs IH]; intros w; simpl.
  - apply extends_refl.
  - apply extends_trans with (db (step w ev)); [apply step_extends | apply IH].
Qed.

Lemma registered_stays (w : World) (evs : list Event) (q : User.t -> bool) (u : User.t) :
  find q (users (db w)) = Some u -> find q (users (db (steps w evs))) = Some u.
Proof.
  intros F. destruct (steps_extends evs w) as (us & ms & Hu & _).
  rewrite Hu. now apply find_app_Some.
Qed.

(** X5.  Once an account is stored under the lower-cased form of an email,
    the answer to a login with that email and a given password is the same
    after any further events: a login that succeeds keeps succeeding with
    the same account, one that is refused for its password stays refused
    (nothing changes or removes a stored password). *)
Theorem login_answer_is_permanent (w : World) (evs : list Event) (email password : string) :
  (exists u, In u (users (db w)) /\ User.email u = toLowerCase email) ->
  snd (run (post_login email password) (steps w evs))
  = snd (run (post_login email password) w).
Proof.
  intros Hreg. apply existsb_byEmail, find_is_Some in Hreg as [u F].
  rewrite !post_login_run. simpl.
  now rewrite (registered_stays w evs _ u F), F.
Qed.

(** X6.  An email under which an account is stored stays taken: after any
    further events a signup with exactly that email, whatever its other
    fields, is answered 400 'Email already exists' and changes nothing. *)
Theorem registered_email_stays_taken
        (w : World) (evs : list Event) (salt : Salt)
        (firstName lastName email password role : string) :
  (exists u, In u (users (db w)) /\ User.email u = email) ->
  run (post_signup salt firstName lastName email password role) (steps w evs)
  = (steps w evs, [Respond 400 (message_body "Email already exists")]).
Proof.
  intros Hreg. apply existsb_byEmail, find_is_Some in Hreg as [u F].
  apply (post_signup_duplicate _ salt firstName lastName email password role u).
  now apply registered_stays.
Qed.

End Growth.

Lemma login_answer_is_permanent_witness :
  snd (run (post_login (js:=ascii_strings) (bcrypt:=toy_bcrypt) "Jane@X.com" "pw1")
           (steps (js:=ascii_strings) (bcrypt:=toy_bcrypt) janeWorld
                  [PostSignup "u" "Al" "Poe" "al@x.com" "pw3" "Admin";
                   SendMessage 7 "a" 0 1 "hello"]))
  = [Respond 200 (loggedIn jane)].
Proof.
  rewrite (login_answer_is_permanent (js:=ascii_strings) (bcrypt:=toy_bcrypt) janeWorld).
  - reflexivity.
  - exists jane. split; [now left | reflexivity].
Defined.

Lemma registered_email_stays_taken_witness :
  snd (run (post_signup (bcrypt:=toy_bcrypt) "u" "J" "D" "jane@x.com" "other" "Admin")
           (steps (js:=ascii_strings) (bcrypt:=toy_bcrypt) janeWorld [SendMessage 7 "a" 0 1 "hello"]))
  = [Respond 400 (message_body "Email already exists")].
Proof.
  rewrite (registered_email_stays_taken (js:=ascii_strings) (bcrypt:=toy_bcrypt) janeWorld).
  - reflexivity.
  - exists jane. split; [now left | reflexivity].
Defined.

(** ** Emails stay unique *)

Lemma NoDup_snoc {A} (l : list A) (x : A) : NoDup l -> ~ In x l -> NoDup (l ++ [x]).
Proof.
  intros ND Hx. apply NoDup_app; [exact ND | repeat constructor; intros [] |].
  intros a Ha [<-|[]]. now apply Hx.
Qed.

Lemma filter_keeps_distinct {K V} (key : V -> K) (keep : V -> bool) (vs : list V)
      (ND : NoDup (map key vs)) :
  NoDup (map key (filter keep vs)).
Proof.
  induction vs as [|v vs IH]; simpl in *; [constructor|].
  inversion ND as [|? ? Hnotin ND']; subst.
  destruct (keep v); simpl; [|now apply IH].
  constructor; [|now apply IH].
  intros Hin. apply Hnotin. apply in_map_iff in Hin as (y & Hy & Hin).
  apply filter_In in Hin as [Hin _]. rewrite <- Hy. now apply in_map.
Qed.

Section Uniqueness.
Context {js : JSString} {bcrypt : Bcrypt}.

Lemma seededFrom_emails (created : list User.t) (ds : list UserData.t) :
  Forall2 seededFrom created ds -> map User.email created = map UserData.email ds.
Proof.
  induction 1 as [|u d created ds (_ & _ & He & _) _ IH]; simpl; [reflexivity|].
  now rewrite He, IH.
Qed.

Lemma step_uniqueEmails (w : World) (ev : Event) :
  uniqueEmails (db w) -> uniqueEmails (db (step w ev)).
Proof.
  unfold uniqueEmails, step. intros ND.
  destruct ev as [salts|salt f l e p r|e p| | | |o c|s|now sock s r c|s];
    cbn [handler].
  - destruct (initializeDefaultUsers_run salts w)
      as (created & logs & w' & Hrun & Hu & _ & _ & HF & _).
    unfold run. rewrite Hrun. simpl. rewrite Hu, map_app.
    rewrite (seededFrom_emails _ _ HF).
    apply NoDup_app; [exact ND | apply filter_keeps_distinct, defaultUsers_distinct |].
    intros a Ha Hb. apply in_map_iff in Hb as (d & <- & Hd).
    apply filter_In in Hd as [_ Habs]. unfold absentIn in Habs.
    apply negb_true_iff in Habs.
    apply in_map_iff in Ha as (u & Hu' & Hin).
    assert (existsb (byEmail (UserData.email d)) (users (db w)) = true)
      by (apply existsb_byEmail; eauto).
    congruence.
  - destruct (find (byEmail e) (users (db w))) as [u|] eqn:F.
    + now rewrite (post_signup_duplicate w salt f l e p r u F).
    + destruct (isEmpty f) eqn:Ef;
        [|destruct (isEmpty l) eqn:El;
          [|destruct (isEmpty e) eqn:Ee; [|destruct (isEmpty r) eqn:Er]]].
      5: { rewrite post_signup_created by (auto; now apply isEmpty_false).
           simpl. rewrite map_app. apply NoDup_snoc; [exact ND|]. simpl.
           intros Hin. apply in_map_iff in Hin as (u & Hu & Hin).
           apply (proj2 (absent_byEmail e (users (db w))) F u Hin Hu). }
      all: destruct (post_signup_invalid w salt f l e p r F) as [path Hrun];
        [ rewrite <- !isEmpty_true; tauto | now rewrite Hrun ].
  - now rewrite post_login_run.
  - now rewrite get_chat_users_run.
  - exact ND.
  - exact ND.
  - now rewrite get_chat_messages_run.
  - exact ND.
  - destruct (isEmpty c) eqn:Ec.
    + apply isEmpty_true in Ec. now rewrite (on_sendMessage_thrown w now s r c Ec).
    + apply isEmpty_false in Ec. now rewrite (on_sendMessage_saved w now s r c Ec).
  - exact ND.
Qed.

(** X1.  The handlers keep the emails of the stored accounts pairwise
    distinct: if no two stored accounts share an email, then after any
    sequence of events (seedings, signups, logins, listings, retrievals,
    socket events) still no two do. *)
Theorem emails_stay_unique (w : World) (evs : list Event) :
  uniqueEmails (db w) -> uniqueEmails (db (steps w evs)).
Proof.
  revert w. induction evs as [|ev evs IH]; intros w ND; simpl; [exact ND|].
  apply IH. now apply step_uniqueEmails.
Qed.

(** X2.  In a store whose emails are pairwise distinct, a login is
    answered 200 with an account exactly when that account is stored, its
    email is the lower-cased submitted email and the submitted password
    verifies against its hash; and it is answered 400 'Invalid email or
    password' exactly when there is no such account.  Either way the
    world is left as it is. *)
Theorem login_iff_credentials (w : World) (email password : string) :
  uniqueEmails (db w) ->
  (forall u,
     run (post_login email password) w = (w, [Respond 200 (loggedIn u)]) <->
     In u (users (db w)) /\ User.email u = toLowerCase email /\
     bcrypt_compare password (User.password u) = true) /\
  (run (post_login email password) w
   = (w, [Respond 400 (message_body "Invalid email or password")]) <->
   ~ exists u, In u (users (db w)) /\ User.email u = toLowerCase email /\
               bcrypt_compare password (User.password u) = true).
Proof.
  intros ND. rewrite post_login_run.
  destruct (find (byEmail (toLowerCase email)) (users (db w))) as [v|] eqn:F.
  - assert (Hv := F). apply find_some in Hv as [Hin He]. apply String.eqb_eq in He.
    assert (Hsame : forall u, In u (users (db w)) ->
                              User.email u = toLowerCase email -> u = v).
    { intros u Hu Hue. rewrite <- Hue in F.
      rewrite (find_unique_email _ u ND Hu) in F. congruence. }
    destruct (bcrypt_compare password (User.password v)) eqn:C.
    + split.
      * intros u. split.
        -- intros H.
           assert (Hj : User.toJSON v = User.toJSON u)
             by (unfold loggedIn in H; unfold User.toJSON at 2; congruence).
           apply toJSON_injective in Hj. subst u.
           repeat split; assumption.
        -- intros (Hu & Hue & _). now rewrite (Hsame u Hu Hue).
      * split; [discriminate|]. intros Hno. elim Hno. exists v. repeat split; assumption.
    + split.
      * intros u. split; [discriminate|].
        intros (Hu & Hue & Hc). rewrite (Hsame u Hu Hue) in Hc. congruence.
      * split; [|reflexivity]. intros _ (u & Hu & Hue & Hc).
        rewrite (Hsame u Hu Hue) in Hc. congruence.
  - pose proof (proj2 (absent_byEmail (toLowerCase email) (users (db w))) F) as Fa.
    split.
    + intros u. split; [discriminate|]. intros (Hu & Hue & _). now elim (Fa u Hu).
    + split; [|reflexivity]. intros _ (u & Hu & Hue & _). now elim (Fa u Hu).
Qed.

End Uniqueness.

Lemma emails_stay_unique_witness :
  uniqueEmails (db (steps (js:=ascii_strings) (bcrypt:=toy_bcrypt) emptyWorld
                      [StoreOpen (fun _ => "s");
                       PostSignup "t" "Jane" "Doe" "Jane@x.com" "pw1" "Teacher";
                       PostSignup "u" "Jo" "Low" "Jane@x.com" "pw2" "Parent"])).
Proof.
  apply (emails_stay_unique (js:=ascii_strings) (bcrypt:=toy_bcrypt)). constructor.
Defined.

Lemma janeWorld_uniqueEmails : uniqueEmails (db janeWorld).
Proof.
  unfold uniqueEmails. simpl. repeat constructor; simpl.
  - intros [H|[]]. discriminate.
  - intros [].
Qed.

Lemma login_iff_credentials_witness :
  run (post_login (js:=ascii_strings) (bcrypt:=toy_bcrypt) "SAM@x.com" "pw2") janeWorld
  = (janeWorld, [Respond 200 (loggedIn sam)]).
Proof.
  apply (login_iff_credentials (js:=ascii_strings) (bcrypt:=toy_bcrypt) janeWorld "SAM@x.com" "pw2"
           janeWorld_uniqueEmails).
  split; [right; now left | split; reflexivity].
Defined.

(** ** Signing up, then logging in *)

Section RoundTrip.
Context {js : JSString} {bcrypt : Bcrypt}.

(** X3.  After a signup answered 201, a login with the password of the
    signup and an email whose lower-case form is the email of the signup
    (so the email itself when it has no upper-case letter, or that email
    typed in any mix of cases) is answered 200 with the account just
    created. *)
Theorem signup_then_login (w : World) (salt : Salt)
        (firstName lastName email password role : string) (typed : string) :
  snd (run (post_signup salt firstName lastName email password role) w)
  = [Respond 201 (message_body "User created successfully")] ->
  toLowerCase typed = email ->
  let w' := fst (run (post_signup salt firstName lastName email password role) w) in
  exists u,
    users (db w') = users (db w) ++ [u] /\
    User.firstName u = firstName /\ User.lastName u = lastName /\
    User.email u = email /\ User.role u = role /\
    run (post_login typed password) w' = (w', [Respond 200 (loggedIn u)]).
Proof.
  intros H201 Htyped. apply post_signup_201 in H201 as [F Hrun]. rewrite Hrun.
  cbv zeta. simpl fst.
  set (u := signedUp (oidCounter w) salt firstName lastName email password role).
  exists u. repeat (split; [reflexivity|]).
  rewrite post_login_run, Htyped. simpl users.
  rewrite (find_app_None _ _ [u] F). simpl find.
  unfold byEmail. simpl User.email. rewrite String.eqb_refl.
  simpl User.password. now rewrite bcrypt_compare_hash.
Qed.

(** X4.  The body of a login answered 200 carries the whole stored
    document of the account, its [password] field -- the stored bcrypt
    hash, against which the submitted password verifies -- included. *)
Theorem login_success_returns_hash (w : World) (email password : string) (body : JVal) :
  snd (run (post_login email password) w) = [Respond 200 body] ->
  exists u,
    In u (users (db w)) /\
    body = JObj [("message", JStr "Login successful"); ("user", JObj (User.toJSON u))] /\
    body = JObj [("message", JStr "Login successful");
                 ("user", JObj [("_id", JOid (User._id u));
                                ("firstName", JStr (User.firstName u));
                                ("lastName", JStr (User.lastName u));
                                ("email", JStr (User.email u));
                                ("password", JStr (User.password u));
                                ("role", JStr (User.role u));
                                ("__v", JNum 0)])] /\
    keys (User.toJSON u)
    = ["_id"; "firstName"; "lastName"; "email"; "password"; "role"; "__v"] /\
    get "password" (User.toJSON u) = Some (JStr (User.password u)) /\
    bcrypt_compare password (User.password u) = true.
Proof.
  intros H.
  destruct (post_login_outcome w email password)
    as [(u & Hin & _ & Hc & Hrun)|Hrun]; rewrite Hrun in H; simpl in H.
  - exists u. split; [exact Hin|].
    assert (Hb : body = JObj [("message", JStr "Login successful");
                              ("user", JObj (User.toJSON u))]) by congruence.
    split; [exact Hb|]. split; [exact Hb|].
    repeat split. exact Hc.
  - discriminate.
Qed.

(** X15.  After a signup answered 201, [GET /chat/users] answers with the
    records it answered with before, followed by one record for the new
    account, which shows its names, email and role and no password; and
    [GET /chat/teachers] gains the new account's whole document if its
    role is exactly ['Teacher'] and answers as before otherwise (the role
    is any string the request gave). *)
Theorem signup_then_listed (w : World) (salt : Salt)
        (firstName lastName email password role : string) :
  snd (run (post_signup salt firstName lastName email password role) w)
  = [Respond 201 (message_body "User created successfully")] ->
  let w' := fst (run (post_signup salt firstName lastName email password role) w) in
  exists u olds oldTeachers,
    users (db w') = users (db w) ++ [u] /\
    snd (run get_chat_users w) = [Respond 200 (JArr olds)] /\
    snd (run get_chat_users w')
    = [Respond 200 (JArr (olds ++
         [JObj [("_id", JOid (User._id u)); ("firstName", JStr firstName);
                ("lastName", JStr lastName); ("email", JStr email);
                ("role", JStr role)]]))] /\
    snd (run get_chat_teachers w) = [Respond 200 (JArr oldTeachers)] /\
    (role = "Teacher" ->
     snd (run get_chat_teachers w')
     = [Respond 200 (JArr (oldTeachers ++ [JObj (User.toJSON u)]))]) /\
    (role <> "Teacher" ->
     snd (run get_chat_teachers w') = [Respond 200 (JArr oldTeachers)]).
Proof.
  intros H201. apply post_signup_201 in H201 as [F Hrun]. rewrite Hrun.
  cbv zeta. simpl fst.
  set (u := signedUp (oidCounter w) salt firstName lastName email password role).
  exists u. do 2 eexists.
  split; [reflexivity|].
  split; [rewrite get_chat_users_run; reflexivity|].
  split; [rewrite get_chat_users_run; simpl; now rewrite map_app|].
  split; [rewrite get_chat_teachers_run; reflexivity|].
  rewrite get_chat_teachers_run. simpl snd. simpl users.
  rewrite filter_app, map_app. simpl filter.
  change (byRole "Teacher" u) with (String.eqb role "Teacher"). split.
  - intros ->. reflexivity.
  - intros Hr. apply String.eqb_neq in Hr. rewrite Hr. simpl. now rewrite app_nil_r.
Qed.

End RoundTrip.

Lemma signup_then_login_witness :
  exists u,
    run (post_login (js:=ascii_strings) (bcrypt:=toy_bcrypt) "Al@X.COM" "pw3")
        (fst (run (post_signup (bcrypt:=toy_bcrypt)
                     "u" "Al" "Poe" "al@x.com" "pw3" "Admin") janeWorld))
    = (fst (run (post_signup (bcrypt:=toy_bcrypt)
                   "u" "Al" "Poe" "al@x.com" "pw3" "Admin") janeWorld),
       [Respond 200 (loggedIn u)]).
Proof.
  destruct (signup_then_login (js:=ascii_strings) (bcrypt:=toy_bcrypt) janeWorld
              "u" "Al" "Poe" "al@x.com" "pw3" "Admin" "Al@X.COM"
              eq_refl eq_refl)
    as (u & _ & _ & _ & _ & _ & Hlogin).
  exists u. exact Hlogin.
Defined.

Lemma login_success_returns_hash_witness :
  exists u, In u (users (db janeWorld)) /\
            bcrypt_compare (Bcrypt:=toy_bcrypt) "pw1" (User.password u) = true.
Proof.
  destruct (login_success_returns_hash (js:=ascii_strings) (bcrypt:=toy_bcrypt) janeWorld
              "jane@x.com" "pw1" (loggedIn jane) eq_refl)
    as (u & Hin & _ & _ & _ & _ & Hc).
  exists u. split; assumption.
Defined.

Lemma signup_then_listed_witness :
  exists u,
    users (db (fst (run (post_signup (bcrypt:=toy_bcrypt)
                           "u" "Al" "Poe" "al@x.com" "pw3" "Admin") janeWorld)))
    = users (db janeWorld) ++ [u].
Proof.
  destruct (signup_then_listed (bcrypt:=toy_bcrypt) janeWorld
              "u" "Al" "Poe" "al@x.com" "pw3" "Admin" eq_refl)
    as (u & olds & oldTeachers & Hu & _).
  exists u. exact Hu.
Defined.

(** ** Seeding, then logging in *)

Section SeededAccounts.
Context {js : JSString} {bcrypt : Bcrypt}.

Lemma seed_loop_logs (salts : nat -> Salt) (ds : list UserData.t) :
  Forall wellFormed ds ->
  NoDup (map UserData.email ds) ->
  forall (i : nat) (w : World),
    snd (for_of i ds (fun i d => initializeDefaultUser (salts i) d) w)
    = map createdLine (filter (absentIn (users (db w))) ds).
Proof.
  induction ds as [|d ds IH]; intros WF ND i w; [reflexivity|].
  inversion WF as [|? ? WFd WFds]; subst.
  simpl in ND. inversion ND as [|? ? Hnotin NDds]; subst.
  simpl for_of. unfold bind at 1. simpl filter. unfold absentIn at 1.
  destruct (existsb (byEmail (UserData.email d)) (users (db w))) eqn:E; simpl negb.
  - rewrite (initializeDefaultUser_skip _ _ _ E).
    specialize (IH WFds NDds (S i) w).
    destruct (for_of (S i) ds _ w) as [[r w'] logs]. simpl in IH |- *. exact IH.
  - rewrite (initializeDefaultUser_create _ _ _ WFd E).
    set (u := signedUp _ _ _ _ _ _ _).
    specialize (IH WFds NDds (S i) (withUser w u)).
    destruct (for_of (S i) ds _ (withUser w u)) as [[r w'] logs].
    simpl in IH |- *. rewrite IH. unfold createdLine at 2. f_equal. f_equal.
    apply filter_ext_in. intros d' Hd'. apply absentIn_snoc. unfold u; simpl.
    intros Heq. apply Hnotin. rewrite Heq. now apply in_map.
Qed.

(** X9.  All that the seeding does besides storing accounts is log one
    line, 'Created default user: ' followed by the email, for each account
    it creates, in the order of the list: it logs no error, answers
    nothing and emits nothing, and it logs nothing at all when the three
    emails are already stored. *)
Theorem seeding_logs_what_it_creates (salts : nat -> Salt) (w : World) :
  snd (run (initializeDefaultUsers salts) w)
  = map (fun d => ConsoleLog ("Created default user: " ++ UserData.email d))
        (filter (fun d => negb (existsb (byEmail (UserData.email d)) (users (db w))))
                defaultUsers).
Proof.
  unfold run, initializeDefaultUsers.
  pose proof (seed_loop_logs salts defaultUsers defaultUsers_wellFormed
                             defaultUsers_distinct 0 w) as H.
  destruct (for_of 0 defaultUsers _ w) as [[r w'] logs]. exact H.
Qed.

Lemma seeded_found (created : list User.t) (ds : list UserData.t) :
  Forall2 seededFrom created ds ->
  NoDup (map UserData.email ds) ->
  forall d, In d ds ->
            exists u, seededFrom u d /\ find (byEmail (UserData.email d)) created = Some u.
Proof.
  induction 1 as [|u d' created ds Hud _ IH]; intros ND d Hd; [destruct Hd|].
  simpl in ND. inversion ND as [|? ? Hnotin ND']; subst.
  simpl. destruct Hd as [->|Hd].
  - exists u. split; [exact Hud|].
    destruct Hud as (_ & _ & He & _). unfold byEmail. now rewrite He, String.eqb_refl.
  - destruct (IH ND' d Hd) as (v & Hv & Fv). exists v. split; [exact Hv|].
    destruct Hud as (_ & _ & He & _). unfold byEmail at 1. rewrite He.
    destruct (String.eqb_spec (UserData.email d') (UserData.email d)) as [E|_];
      [|exact Fv].
    elim Hnotin. rewrite E. now apply in_map.
Qed.

(** X7.  After the seeding, each default account whose email was not
    stored before can log in: a login with the default's password and its
    email, in any mix of cases, is answered 200 with the account seeded
    from that default (its names and role). *)
Theorem seeded_account_logs_in (salts : nat -> Salt) (w : World) (d : UserData.t)
        (typed : string) :
  In d defaultUsers ->
  (forall u, In u (users (db w)) -> User.email u <> UserData.email d) ->
  toLowerCase typed = UserData.email d ->
  let w1 := fst (run (initializeDefaultUsers salts) w) in
  exists u,
    In u (users (db w1)) /\ seededFrom u d /\
    run (post_login typed (UserData.password d)) w1 = (w1, [Respond 200 (loggedIn u)]).
Proof.
  intros Hd Habs Htyped.
  destruct (initializeDefaultUsers_run salts w)
    as (created & logs & w' & Hrun & Hu & _ & _ & HF & _).
  cbv zeta.
  assert (Hfst : fst (run (initializeDefaultUsers salts) w) = w')
    by (unfold run; now rewrite Hrun).
  rewrite Hfst.
  apply absent_byEmail in Habs.
  assert (Hin : In d (filter (absentIn (users (db w))) defaultUsers)).
  { apply filter_In. split; [exact Hd|]. unfold absentIn.
    apply find_existsb in Habs. now rewrite Habs. }
  destruct (seeded_found created _ HF
              (filter_keeps_distinct UserData.email _ _ defaultUsers_distinct) d Hin)
    as (u & Hud & Fu).
  exists u. split; [|split; [exact Hud|]].
  - rewrite Hu. apply in_or_app. right. now apply (find_some _ _ Fu).
  - rewrite post_login_run, Htyped, Hu, (find_app_None _ _ created Habs), Fu.
    destruct Hud as (_ & _ & _ & _ & salt & Hp). rewrite Hp, bcrypt_compare_hash.
    reflexivity.
Qed.

End SeededAccounts.

Lemma seeded_account_logs_in_witness :
  exists u,
    User.role u = "Admin" /\
    snd (run (post_login (js:=ascii_strings) (bcrypt:=toy_bcrypt) "Admin@Example.com" "admin123")
             (fst (run (initializeDefaultUsers (bcrypt:=toy_bcrypt) (fun _ => "s"))
                       janeWorld)))
    = [Respond 200 (loggedIn u)].
Proof.
  destruct (seeded_account_logs_in (js:=ascii_strings) (bcrypt:=toy_bcrypt) (fun _ => "s") janeWorld
              {| UserData.firstName := "Admin"; UserData.lastName := "User";
                 UserData.email := "admin@example.com"; UserData.password := "admin123";
                 UserData.role := "Admin" |} "Admin@Example.com")
    as (u & _ & Hud & Hlogin).
  - now left.
  - intros u [<-|[<-|[]]]; discriminate.
  - reflexivity.
  - exists u. destruct Hud as (_ & _ & _ & Hr & _). split; [exact Hr|].
    exact (f_equal snd Hlogin).
Defined.

(** ** Histories *)

Lemma fromTo_sent (a b : ObjectId) (id : ObjectId) (now : Z) (s r : ObjectId)
      (c : string) :
  q_or (fromTo a b) (fromTo b a) (sent id now s r c) = true <->
  (s = a /\ r = b) \/ (s = b /\ r = a).
Proof.
  unfold q_or, fromTo. simpl.
  rewrite orb_true_iff, !andb_true_iff, !N.eqb_eq. tauto.
Qed.

(** X10.  What a [sendMessage] event with a non-empty content does to the
    histories: the answer of [getMessages(a, b)] gains the new message, as
    its last entry, when the event's sender and receiver are [a] and [b] in
    either order, and is the same as before for every other pair. *)
Theorem send_extends_one_history
        (w : World) (now : Z) (senderId receiverId : ObjectId) (content : string)
        (a b : ObjectId) :
  content <> "" ->
  let w' := fst (run (on_sendMessage now senderId receiverId content) w) in
  exists before m,
    snd (run (get_chat_messages b a) w) = [Respond 200 (JArr before)] /\
    messages (db w') = messages (db w) ++ [m] /\
    (((senderId = a /\ receiverId = b) \/ (senderId = b /\ receiverId = a)) ->
     snd (run (get_chat_messages b a) w')
     = [Respond 200 (JArr (before ++ [JObj (conversation (users (db w)) m)]))]) /\
    (~ ((senderId = a /\ receiverId = b) \/ (senderId = b /\ receiverId = a)) ->
     snd (run (get_chat_messages b a) w') = [Respond 200 (JArr before)]).
Proof.
  intros Hc. cbv zeta.
  rewrite (on_sendMessage_saved w now senderId receiverId content Hc). simpl fst.
  set (m := sent (oidCounter w) now senderId receiverId content).
  do 2 eexists. split; [rewrite get_chat_messages_run; reflexivity|].
  split; [reflexivity|].
  rewrite get_chat_messages_run. simpl snd. simpl users. simpl messages.
  rewrite filter_app, map_app. simpl filter.
  destruct (q_or (fromTo a b) (fromTo b a) m) eqn:Q; split.
  - reflexivity.
  - intros Hn. elim Hn.
    exact (proj1 (fromTo_sent a b (oidCounter w) now senderId receiverId content) Q).
  - intros Hy.
    pose proof (proj2 (fromTo_sent a b (oidCounter w) now senderId receiverId content) Hy)
      as Q'.
    fold m in Q'. congruence.
  - intros _. simpl. now rewrite app_nil_r.
Qed.

(** X11.  The sender of a [sendMessage] event need not be an account: when
    no stored account has the sender's identifier and the content is not
    empty, the message is stored and broadcast all the same, and
    [getMessages] returns it with [null] for its [sender]. *)
Theorem message_from_unknown_sender
        (w : World) (now : Z) (senderId receiverId : ObjectId) (content : string) :
  content <> "" ->
  (forall u, In u (users (db w)) -> User._id u <> senderId) ->
  let w' := fst (run (on_sendMessage now senderId receiverId content) w) in
  let out := snd (run (on_sendMessage now senderId receiverId content) w) in
  out = map (fun s => Emit s "receiveMessage"
                           (receiveMessage senderId receiverId content now))
            (sockets w) /\
  exists body o,
    run (get_chat_messages receiverId senderId) w' = (w', [Respond 200 (JArr body)]) /\
    In (JObj o) body /\
    get "sender" o = Some JNull /\
    get "content" o = Some (JStr content).
Proof.
  intros Hc Hnone. cbv zeta.
  rewrite (on_sendMessage_saved w now senderId receiverId content Hc).
  simpl fst. simpl snd. split; [reflexivity|].
  set (m := sent (oidCounter w) now senderId receiverId content).
  eexists. exists (conversation (users (db w)) m).
  split; [apply get_chat_messages_run|]. split.
  - apply (in_map (fun m => JObj (conversation (users (db (withMessage w m))) m))).
    apply in_between. split.
    + simpl. apply in_or_app. right. now left.
    + left. split; reflexivity.
  - split; [|reflexivity]. simpl. unfold expanded.
    destruct (find _ (users (db w))) as [u|] eqn:F; [|reflexivity].
    apply find_some in F as [Hin He]. apply N.eqb_eq in He. now elim (Hnone u Hin).
Qed.

Section Histories.
Context {js : JSString} {bcrypt : Bcrypt}.

(** X12.  A stored message is never lost from its history: if [m] is
    stored and was sent between [a] and [b], then after any sequence of
    events [getMessages(a, b)] is answered 200 with a list that contains
    [m], populated from the accounts stored then. *)
Theorem history_keeps_messages (w : World) (evs : list Event) (a b : ObjectId)
        (m : Message.t) :
  In m (messages (db w)) ->
  (Message.sender m = a /\ Message.receiver m = b) \/
  (Message.sender m = b /\ Message.receiver m = a) ->
  exists body,
    run (get_chat_messages b a) (steps w evs) = (steps w evs, [Respond 200 (JArr body)]) /\
    In (JObj (conversation (users (db (steps w evs))) m)) body.
Proof.
  intros Hin Hbt. eexists. split; [apply get_chat_messages_run|].
  apply (in_map (fun m => JObj (conversation (users (db (steps w evs))) m))).
  apply in_between. split; [|exact Hbt].
  destruct (steps_extends evs w) as (us & ms & _ & Hm).
  rewrite Hm. apply in_or_app. now left.
Qed.

End Histories.

Lemma send_extends_one_history_witness :
  exists before m,
    snd (run (get_chat_messages 0 1) janeWorld) = [Respond 200 (JArr before)] /\
    snd (run (get_chat_messages 0 1) (fst (run (on_sendMessage 5 0 1 "hi") janeWorld)))
    = [Respond 200 (JArr (before ++ [JObj (conversation (users (db janeWorld)) m)]))].
Proof.
  assert (Hc : "hi" <> "") by discriminate.
  destruct (send_extends_one_history janeWorld 5 0 1 "hi" 1 0 Hc)
    as (before & m & Hb & _ & Hyes & _).
  exists before, m. split; [exact Hb|]. apply Hyes. right. split; reflexivity.
Defined.

Lemma message_from_unknown_sender_witness :
  exists body o,
    run (get_chat_messages 1 9) (fst (run (on_sendMessage 5 9 1 "hi") janeWorld))
    = (fst (run (on_sendMessage 5 9 1 "hi") janeWorld), [Respond 200 (JArr body)]) /\
    In (JObj o) body /\ get "sender" o = Some JNull.
Proof.
  assert (Hc : "hi" <> "") by discriminate.
  assert (Hnone : forall u, In u (users (db janeWorld)) -> User._id u <> 9%N).
  { intros u [<-|[<-|[]]]; discriminate. }
  destruct (message_from_unknown_sender janeWorld 5 9 1 "hi" Hc Hnone)
    as (_ & body & o & Hrun & Hin & Hs & _).
  exists body, o. repeat split; assumption.
Defined.

Lemma history_keeps_messages_witness :
  exists body,
    In (JObj (conversation
                (users (db (steps (js:=ascii_strings) (bcrypt:=toy_bcrypt)
                                  (fst (run (on_sendMessage 5 0 1 "hi") janeWorld))
                                  [PostSignup "u" "Al" "Poe" "al@x.com" "pw3" "Admin";
                                   SendMessage 6 "a" 1 0 "yo"])))
                (sent 2 5 0 1 "hi")))
       body.
Proof.
  destruct (history_keeps_messages (js:=ascii_strings) (bcrypt:=toy_bcrypt)
              (fst (run (on_sendMessage 5 0 1 "hi") janeWorld))
              [PostSignup "u" "Al" "Poe" "al@x.com" "pw3" "Admin";
               SendMessage 6 "a" 1 0 "yo"]
              0 1 (sent 2 5 0 1 "hi"))
    as (body & _ & Hin).
  - now left.
  - left. split; reflexivity.
  - exists body. exact Hin.
Defined.

(** ** Answers and audiences *)

Lemma no_respond_in_emits (f : SocketId -> Effect) (l : list SocketId) :
  (forall s, isRespond (f s) = false) -> filter isRespond (map f l) = [].
Proof.
  intros Hf. induction l as [|s l IH]; simpl; [reflexivity|]. now rewrite Hf, IH.
Qed.

Lemma no_respond_in_lines (ds : list UserData.t) :
  filter isRespond (map createdLine ds) = [].
Proof. induction ds as [|d ds IH]; simpl; [reflexivity | exact IH]. Qed.

Section Answers.
Context {js : JSString} {bcrypt : Bcrypt}.

(** X13.  Every HTTP request is answered exactly once, and handling it
    emits nothing on the realtime channel and leaves the set of connected
    clients as it is; the seeding and the socket events answer no HTTP
    request. *)
Theorem http_answered_once (w : World) (ev : Event) :
  let w' := fst (run (handler ev) w) in
  let out := snd (run (handler ev) w) in
  List.length (filter isRespond out) = (if isHttp ev then 1 else 0)%nat /\
  (isHttp ev = true -> filter isEmit out = [] /\ sockets w' = sockets w).
Proof.
  cbv zeta.
  destruct ev as [salts|salt f l e p r|e p| | | |o c|s|now sock s r c|s];
    cbn [handler isHttp].
  - split; [|discriminate].
    unfold run, initializeDefaultUsers.
    pose proof (seed_loop_logs salts defaultUsers defaultUsers_wellFormed
                               defaultUsers_distinct 0 w) as H.
    destruct (for_of 0 defaultUsers _ w) as [[r w'] logs]. simpl in H |- *.
    now rewrite H, no_respond_in_lines.
  - destruct (find (byEmail e) (users (db w))) as [u|] eqn:F.
    + rewrite (post_signup_duplicate w salt f l e p r u F). now repeat split.
    + destruct (isEmpty f) eqn:Ef;
        [|destruct (isEmpty l) eqn:El;
          [|destruct (isEmpty e) eqn:Ee; [|destruct (isEmpty r) eqn:Er]]].
      5: { rewrite post_signup_created by (auto; now apply isEmpty_false).
           now repeat split. }
      all: destruct (post_signup_invalid w salt f l e p r F) as [path Hrun];
        [ rewrite <- !isEmpty_true; tauto | rewrite Hrun; now repeat split ].
  - rewrite post_login_run. now repeat split.
  - rewrite get_chat_users_run. now repeat split.
  - now repeat split.
  - now repeat split.
  - rewrite get_chat_messages_run. now repeat split.
  - split; [reflexivity | discriminate].
  - split; [|discriminate].
    destruct (isEmpty c) eqn:Ec.
    + apply isEmpty_true in Ec. now rewrite (on_sendMessage_thrown w now s r c Ec).
    + apply isEmpty_false in Ec. rewrite (on_sendMessage_saved w now s r c Ec).
      simpl snd. now rewrite no_respond_in_emits.
  - split; [reflexivity | discriminate].
Qed.

End Answers.

(** X14.  Who a broadcast reaches follows the connections: a
    [receiveMessage] event is delivered to a client that has just
    connected; after a client has disconnected, nothing is delivered to it
    while every other connected client is still served.  Connecting and
    disconnecting only log a line and leave the store as it is. *)
Theorem broadcast_follows_connections
        (w : World) (socket : SocketId) (now : Z) (senderId receiverId : ObjectId)
        (content : string) :
  content <> "" ->
  let send := on_sendMessage now senderId receiverId content in
  let event := Emit socket "receiveMessage"
                    (receiveMessage senderId receiverId content now) in
  (run (on_connection socket) w
   = ({| db := db w; sockets := sockets w ++ [socket]; oidCounter := oidCounter w |},
      [ConsoleLog ("A user connected: " ++ socket)]) /\
   In event (snd (run send (fst (run (on_connection socket) w))))) /\
  (snd (run (on_disconnect socket) w) = [ConsoleLog ("User disconnected: " ++ socket)] /\
   db (fst (run (on_disconnect socket) w)) = db w /\
   (forall ev payload,
      ~ In (Emit socket ev payload) (snd (run send (fst (run (on_disconnect socket) w))))) /\
   (forall other,
      other <> socket -> In other (sockets w) ->
      In (Emit other "receiveMessage" (receiveMessage senderId receiverId content now))
         (snd (run send (fst (run (on_disconnect socket) w)))))).
Proof.
  intros Hc. cbv zeta. split; [split; [reflexivity|] | split; [reflexivity|split; [reflexivity|split]]].
  - rewrite (on_sendMessage_saved _ now senderId receiverId content Hc). simpl.
    apply (in_map (fun s => Emit s "receiveMessage"
                                 (receiveMessage senderId receiverId content now))).
    apply in_or_app. right. now left.
  - intros ev payload Hin.
    rewrite (on_sendMessage_saved _ now senderId receiverId content Hc) in Hin.
    simpl in Hin. apply in_map_iff in Hin as (s & Heq & Hs).
    apply filter_In in Hs as [_ Hs]. inversion Heq; subst s.
    now rewrite String.eqb_refl in Hs.
  - intros other Hne Hin.
    rewrite (on_sendMessage_saved _ now senderId receiverId content Hc). simpl.
    apply (in_map (fun s => Emit s "receiveMessage"
                                 (receiveMessage senderId receiverId content now))).
    apply filter_In. split; [exact Hin|].
    apply negb_true_iff. now apply String.eqb_neq.
Qed.

Lemma http_answered_once_witness :
  filter isEmit (snd (run (handler (js:=ascii_strings) (bcrypt:=toy_bcrypt)
                             (PostSignup "u" "" "Poe" "al@x.com" "pw3" "Admin"))
                          janeWorld)) = [] /\
  sockets (fst (run (handler (js:=ascii_strings) (bcrypt:=toy_bcrypt)
                       (PostSignup "u" "" "Poe" "al@x.com" "pw3" "Admin"))
                    janeWorld)) = sockets janeWorld.
Proof.
  destruct (http_answered_once (js:=ascii_strings) (bcrypt:=toy_bcrypt) janeWorld
              (PostSignup "u" "" "Poe" "al@x.com" "pw3" "Admin")) as [_ H].
  apply H. reflexivity.
Defined.

Lemma broadcast_follows_connections_witness :
  In (Emit "b" "receiveMessage" (receiveMessage 0 1 "hi" 5))
     (snd (run (on_sendMessage 5 0 1 "hi") (fst (run (on_connection "b") janeWorld)))) /\
  ~ In (Emit "a" "receiveMessage" (receiveMessage 0 1 "hi" 5))
       (snd (run (on_sendMessage 5 0 1 "hi") (fst (run (on_disconnect "a") janeWorld)))).
Proof.
  assert (Hc : "hi" <> "") by discriminate.
  split.
  - destruct (broadcast_follows_connections janeWorld "b" 5 0 1 "hi" Hc)
      as [[_ Hin] _]. exact Hin.
  - destruct (broadcast_follows_connections janeWorld "a" 5 0 1 "hi" Hc)
      as [_ (_ & _ & Hno & _)]. apply Hno.
Defined.

(** X8.  A listing or a retrieval that finds nothing is still answered
    200, with an empty array: [getMessages(a, b)] when no stored message
    was sent between [a] and [b] (so also for identifiers of no account),
    and [GET /chat/teachers] when no stored account has the role
    ['Teacher']. *)
Theorem nothing_found_is_an_empty_list (w : World) (a b : ObjectId) :
  ((forall m, In m (messages (db w)) ->
              ~ ((Message.sender m = a /\ Message.receiver m = b) \/
                 (Message.sender m = b /\ Message.receiver m = a))) ->
   run (get_chat_messages b a) w = (w, [Respond 200 (JArr [])])) /\
  ((forall u, In u (users (db w)) -> User.role u <> "Teacher") ->
   run get_chat_teachers w = (w, [Respond 200 (JArr [])])).
Proof.
  split.
  - intros Hnone. rewrite get_chat_messages_run.
    destruct (filter _ (messages (db w))) as [|m ms] eqn:E; [reflexivity|].
    assert (Hin : In m (filter (q_or (fromTo a b) (fromTo b a)) (messages (db w))))
      by (rewrite E; now left).
    apply in_between in Hin as [Hin Hbt]. now elim (Hnone m Hin).
  - intros Hnone. rewrite get_chat_teachers_run.
    destruct (filter _ (users (db w))) as [|u us] eqn:E; [reflexivity|].
    assert (Hin : In u (filter (byRole "Teacher") (users (db w))))
      by (rewrite E; now left).
    apply in_byRole in Hin as [Hin Hr]. now elim (Hnone u Hin).
Qed.

Lemma nothing_found_is_an_empty_list_witness :
  run (get_chat_messages 8 9) janeWorld = (janeWorld, [Respond 200 (JArr [])]) /\
  run get_chat_teachers emptyWorld = (emptyWorld, [Respond 200 (JArr [])]).
Proof.
  split.
  - apply (nothing_found_is_an_empty_list janeWorld 9 8). intros m [].
  - apply (nothing_found_is_an_empty_list emptyWorld 0 0). intros u [].
Defined.
